(** * The response-shaping pipeline of the image-analysis server

    A shallow embedding of the [/api/analyze-image] handler of the
    Express server: the request check, the generation settings sent to
    the vision model, the extraction of a JSON object from the model's
    text, the shape check, the fitting of title, description and tags to
    the caller's character budgets, and the fallback result.

    JavaScript strings are sequences of UTF-16 code units, JavaScript
    values are a tagged union, an exception is an explicit [Throw]
    completion, and the one outbound call to the model is a node of a
    small interaction tree whose continuation receives what the model
    answered.  [console.log] calls are not modelled.  The three limits
    are numbers with an integer value, as the request contract has them;
    the arithmetic and the number-to-text conversion the handler applies
    to them are those of binary64, written out on integers. *)

From Stdlib Require Import ZArith List Bool Lia String Ascii NArith QArith Qround.
From Stdlib Require Import DecimalString DecimalZ DecimalPos.
From Stdlib Require Import PrimFloat.
From Stdlib Require Uint63 FloatOps SpecFloat.
Import ListNotations.

Local Open Scope Z_scope.

(** ** JavaScript strings *)

Module JsString.

(** A string is its list of UTF-16 code units. *)
Definition jsstring : Type := list N.

(** An ASCII literal as a JavaScript string. *)
Definition lit (s : string) : jsstring :=
  List.map N_of_ascii (list_ascii_of_string s).

(** [s.length] *)
Definition jslen (s : jsstring) : Z := Z.of_nat (List.length s).

Definition eqb (a b : jsstring) : bool :=
  if list_eq_dec N.eq_dec a b then true else false.

(** [s.substring(a, b)]: both indices are clamped to [0, s.length] and
    swapped when the first exceeds the second. *)
Definition clamp (x len : Z) : Z := Z.min (Z.max x 0) len.

Definition substring (s : jsstring) (a b : Z) : jsstring :=
  let len := jslen s in
  let a' := clamp a len in
  let b' := clamp b len in
  let from := Z.min a' b' in
  let to := Z.max a' b' in
  firstn (Z.to_nat (to - from)) (skipn (Z.to_nat from) s).

(** The code units that [\s] matches and that [trim] strips: the
    WhiteSpace and LineTerminator productions of ECMAScript. *)
Definition is_ws (c : N) : bool :=
  ((9 <=? c) && (c <=? 13) || (c =? 32) || (c =? 160) || (c =? 5760)
   || (8192 <=? c) && (c <=? 8202) || (c =? 8232) || (c =? 8233)
   || (c =? 8239) || (c =? 8287) || (c =? 12288) || (c =? 65279))%N.

Definition space : N := 32%N.
Definition hash : N := 35%N.

Fixpoint dropWhile (p : N -> bool) (s : jsstring) : jsstring :=
  match s with
  | [] => []
  | c :: r => if p c then dropWhile p r else s
  end.

Definition trimStart (s : jsstring) : jsstring := dropWhile is_ws s.
Definition trimEnd (s : jsstring) : jsstring := rev (dropWhile is_ws (rev s)).

(** [s.trim()] *)
Definition trim (s : jsstring) : jsstring := trimEnd (trimStart s).

(** The character class [[#\s]]. *)
Definition hash_or_ws (c : N) : bool := (c =? hash)%N || is_ws c.

(** [s.replace(/[#\s]+/g, ' ')]: every maximal run of class members
    becomes one space.  [in_run] tells that the previous code unit
    belonged to a run already replaced. *)
Fixpoint replace_runs (in_run : bool) (s : jsstring) : jsstring :=
  match s with
  | [] => []
  | c :: r =>
      if hash_or_ws c
      then (if in_run then replace_runs true r else space :: replace_runs true r)
      else c :: replace_runs false r
  end.

Definition replace_hash_ws (s : jsstring) : jsstring := replace_runs false s.

(** [parts.join(sep)] on an array of strings. *)
Fixpoint join (sep : jsstring) (parts : list jsstring) : jsstring :=
  match parts with
  | [] => []
  | [p] => p
  | p :: rest => p ++ sep ++ join sep rest
  end.

(** The decimal digits of an integer, with a minus sign when negative. *)
Definition of_Z (n : Z) : jsstring :=
  lit (NilZero.string_of_int (Z.to_int n)).

End JsString.
Import JsString.

(** ** JavaScript numbers with an integer value

    Every JavaScript number is a binary64 value.  An integer is one
    exactly when it has at most 53 significant bits and is below 2^1024
    in magnitude; the result of an addition is the exact sum rounded to
    the nearest such value, ties to the even significand, and an
    infinity when the rounded magnitude reaches 2^1024. *)

Module Binary64.

Inductive Number : Type :=
| Finite (value : Z)
| Infinite (negative : bool).

(** Rounding of an integer to 53 significant bits, ties to even. *)
Definition round53 (n : Z) : Z :=
  let a := Z.abs n in
  if a <=? 9007199254740992 then n
  else
    let e := Z.log2 a - 52 in
    let q := Z.shiftr a e in
    let r := a - Z.shiftl q e in
    let half := Z.shiftl 1 (e - 1) in
    let q' := if (half <? r) || ((r =? half) && Z.odd q) then q + 1 else q in
    Z.sgn n * Z.shiftl q' e.

(** The binary64 value nearest to an integer: what an addition with
    that exact result returns, and what [JSON.parse] reads an integer
    literal as. *)
Definition binary64 (n : Z) : Number :=
  let r := round53 n in
  if Z.log2 (Z.abs r) <? 1024 then Finite r else Infinite (r <? 0).

Definition digitCount (n : Z) : Z := jslen (of_Z n).

(** Number::toString picks the decimal with the fewest significant
    digits that reads back as the number and, among those, the one
    nearest to it (the even one on a tie).  [shortestAt m k] is that
    decimal when [k] digits are enough for the positive integer [m]. *)
Definition shortestAt (m k : Z) : option Z :=
  let scale := 10 ^ (digitCount m - k) in
  let lo := m / scale * scale in
  let hi := lo + scale in
  match round53 lo =? m, round53 hi =? m with
  | true, true =>
      if m - lo <? hi - m then Some lo
      else if hi - m <? m - lo then Some hi
      else if Z.even (lo / scale) then Some lo else Some hi
  | true, false => Some lo
  | false, true => Some hi
  | false, false => None
  end.

(** Seventeen significant digits identify every binary64 value. *)
Fixpoint shortestFrom (fuel : nat) (m k : Z) : Z :=
  match fuel with
  | O => m
  | S fuel' =>
      match shortestAt m k with
      | Some v => v
      | None => shortestFrom fuel' m (k + 1)
      end
  end.

Definition shortestDecimal (m : Z) : Z := shortestFrom 17 m 1.

Definition significantDigits (v : Z) : jsstring :=
  rev (dropWhile (fun c => (c =? 48)%N) (rev (of_Z v))).

(** [d.ddde+x], or [de+x] for a single significant digit. *)
Definition exponentForm (v : Z) : jsstring :=
  match significantDigits v with
  | [] => []
  | first :: rest =>
      first :: (match rest with [] => [] | _ :: _ => lit "." ++ rest end)
        ++ lit "e+" ++ of_Z (digitCount v - 1)
  end.

(** A positive integer above 2^53: its shortest decimal, padded with
    zeros up to 21 digits and in exponent form beyond. *)
Definition largeText (m : Z) : jsstring :=
  let v := shortestDecimal m in
  if digitCount v <=? 21 then of_Z v else exponentForm v.

(** Number::toString.  Up to 2^53 every integer is its own shortest
    decimal. *)
Definition toText (x : Number) : jsstring :=
  match x with
  | Infinite negative => if negative then lit "-Infinity" else lit "Infinity"
  | Finite v =>
      if Z.abs v <=? 9007199254740992 then of_Z v
      else (if v <? 0 then lit "-" else []) ++ largeText (Z.abs v)
  end.

(** [`${n}`] for the number received for the integer [n]. *)
Definition numberText (n : Z) : jsstring := toText (binary64 n).

(** The integer that a binary64 number of the machine is, when it is
    one: its significand shifted by its exponent. *)
Definition integerValue (x : PrimFloat.float) : option Z :=
  match FloatOps.Prim2SF x with
  | SpecFloat.S754_zero _ => Some 0
  | SpecFloat.S754_finite negative m e =>
      let magnitude := if 0 <=? e then Z.shiftl (Z.pos m) e else Z.shiftr (Z.pos m) (- e) in
      if (0 <=? e) || (Z.shiftl magnitude (- e) =? Z.pos m)
      then Some (if negative then - magnitude else magnitude)
      else None
  | _ => None
  end.

End Binary64.
Import Binary64.

(** ** JavaScript values *)

#[local] Set Warnings "-register-all".

Inductive JSValue : Type :=
| JUndefined
| JNull
| JBool (b : bool)
| JNumber (x : PrimFloat.float)
| JString (s : jsstring)
| JArray (elems : list JSValue)
| JObject (props : list (jsstring * JSValue)).

(** ToBoolean: what [!v] negates. *)
Definition truthy (v : JSValue) : bool :=
  match v with
  | JUndefined | JNull => false
  | JBool b => b
  | JNumber x => negb (PrimFloat.is_zero x || PrimFloat.is_nan x)
  | JString s => negb (jslen s =? 0)
  | JArray _ | JObject _ => true
  end.

(** The values that are falsy: what makes [!v] true. *)
Inductive Falsy : JSValue -> Prop :=
| Falsy_undefined : Falsy JUndefined
| Falsy_null : Falsy JNull
| Falsy_false : Falsy (JBool false)
| Falsy_zero (x : PrimFloat.float) : PrimFloat.is_zero x = true -> Falsy (JNumber x)
| Falsy_nan (x : PrimFloat.float) : PrimFloat.is_nan x = true -> Falsy (JNumber x)
| Falsy_empty : Falsy (JString []).

(** Property lookup in an object literal. *)
Fixpoint get_prop (k : jsstring) (props : list (jsstring * JSValue)) : JSValue :=
  match props with
  | [] => JUndefined
  | (k', v) :: rest => if JsString.eqb k k' then v else get_prop k rest
  end.

(** [Array.isArray(v)] *)
Definition isArray (v : JSValue) : bool :=
  match v with JArray _ => true | _ => false end.

(** [typeof v === 'string'] *)
Definition is_string (v : JSValue) : bool :=
  match v with JString _ => true | _ => false end.

(** ** Exceptions *)

Inductive Exn : Type :=
| Error (message : jsstring)
| TypeError.

(** The completion of a block that may throw. *)
Inductive Completion (A : Type) : Type :=
| Normal (a : A)
| Throw (e : Exn).

Arguments Normal {A} a.
Arguments Throw {A} e.

Definition bind {A B : Type} (c : Completion A) (k : A -> Completion B) : Completion B :=
  match c with
  | Normal a => k a
  | Throw e => Throw e
  end.

Notation "x <- c ;; k" := (bind c (fun x => k))
  (at level 61, c at next level, right associativity).
Notation "' p <- c ;; k" := (bind c (fun p => k))
  (at level 61, p pattern, c at next level, right associativity).

(** ** The outbound call as an interaction *)

(** What [model.generateContent] is called with. *)
Record GenRequest : Type := mkGenRequest {
  prompt : jsstring;
  inlineData : JSValue;
  inlineMime : jsstring;
  maxOutputTokens : Number;
  temperature : PrimFloat.float
}.

(** A handler either answers, or calls the model and continues with the
    text the model returned or the exception the call raised. *)
Inductive Prog (A : Type) : Type :=
| Ret (a : A)
| Generate (req : GenRequest) (k : Completion jsstring -> Prog A).

Arguments Ret {A} a.
Arguments Generate {A} req k.

(** Running a handler against a model: the answer and the calls issued,
    in order. *)
Fixpoint run {A : Type} (model : GenRequest -> Completion jsstring) (p : Prog A)
  : A * list GenRequest :=
  match p with
  | Ret a => (a, [])
  | Generate req k =>
      let (a, calls) := run model (k (model req)) in (a, req :: calls)
  end.

(** An answer of the handler: the status set and the value handed to
    [res.json], which serialises it ([wire] below is what the other end
    reads back); [res.json] alone answers with status 200. *)
Record Response : Type := mkResponse {
  status : Z;
  payload : JSValue
}.

(** ** Extraction of the JSON span: [text.match(/\{[\s\S]*\}/)] *)

Definition lbrace : N := 123%N.
Definition rbrace : N := 125%N.

(** [[\s\S]*\}] anchored at the start of [s]: the star takes each code
    unit and gives it back only when the rest cannot end in a closing
    brace, so the match is the longest prefix that ends in one. *)
Fixpoint star_close (s : jsstring) : option jsstring :=
  match s with
  | [] => None
  | c :: r =>
      match star_close r with
      | Some m => Some (c :: m)
      | None => if (c =? rbrace)%N then Some [c] else None
      end
  end.

(** The leftmost position where the whole pattern matches; [None] is the
    [null] that [match] returns. *)
Fixpoint brace_match (text : jsstring) : option jsstring :=
  match text with
  | [] => None
  | c :: r =>
      if (c =? lbrace)%N
      then match star_close r with
           | Some m => Some (c :: m)
           | None => brace_match r
           end
      else brace_match r
  end.

(** [s.indexOf(c)] and [s.lastIndexOf(c)] for one code unit; [None]
    stands for -1. *)
Fixpoint indexOf (c : N) (s : jsstring) : option nat :=
  match s with
  | [] => None
  | d :: r => if (d =? c)%N then Some O else option_map S (indexOf c r)
  end.

Fixpoint lastIndexOf (c : N) (s : jsstring) : option nat :=
  match s with
  | [] => None
  | d :: r =>
      match lastIndexOf c r with
      | Some j => Some (S j)
      | None => if (d =? c)%N then Some O else None
      end
  end.

(** [s.startsWith(p)] *)
Fixpoint startsWith (s p : jsstring) : bool :=
  match p, s with
  | [], _ => true
  | _ :: _, [] => false
  | a :: p', b :: s' => (a =? b)%N && startsWith s' p'
  end.

(** ** The handler of [POST /api/analyze-image] *)

(** The request body after [express.json()], destructured.  A field
    that is absent is [JUndefined]; the three limits are numbers with an
    integer value, each held as that integer.  A body whose limit is
    not a number is outside this embedding. *)
Record RequestBody : Type := mkRequestBody {
  image : JSValue;
  mimeType : JSValue;
  titleLength : Z;
  descriptionLength : Z;
  tagsLength : Z
}.

(** The object built on the success and on the fallback path.  After the
    filter of the tag normalisation every tag is a string. *)
Record AnalysisResult : Type := mkAnalysisResult {
  title : JSValue;
  description : JSValue;
  tags : list jsstring
}.

Definition result_json (r : AnalysisResult) : JSValue :=
  JObject [ (lit "title", title r);
            (lit "description", description r);
            (lit "tags", JArray (List.map JString (tags r))) ].

Definition quote : jsstring := [34%N].
Definition newline : jsstring := [10%N].
Definition quoted (s : string) : jsstring := quote ++ lit s ++ quote.

(** The instruction text (the template literal of the handler); each
    limit is written as the language writes a number. *)
Definition promptLines (titleLength descriptionLength tagsLength : Z) : list jsstring :=
  [ lit "Analyze this image in detail and provide:";
    [];
    lit "1. A concise yet descriptive title (max " ++ numberText titleLength ++ lit " characters)";
    lit "2. A comprehensive description (max " ++ numberText descriptionLength
      ++ lit " characters) including:";
    lit "   - Visible elements (objects, people, actions, text)";
    lit "   - Colors, composition, setting/context";
    lit "   - Mood/tone and notable details";
    lit "   - If text exists, transcribe briefly";
    lit "3. A list of short, relevant tags (letters only, no hashes), staying within "
      ++ numberText tagsLength ++ lit " total characters when joined by commas";
    [];
    lit "Output strictly as JSON with exactly:";
    lit "{";
    lit "  " ++ quoted "title" ++ lit ": " ++ quoted "..." ++ lit ",";
    lit "  " ++ quoted "description" ++ lit ": " ++ quoted "..." ++ lit ",";
    lit "  " ++ quoted "tags" ++ lit ": [" ++ quoted "tag1" ++ lit ", " ++ quoted "tag2"
      ++ lit ", " ++ quoted "tag3" ++ lit ", " ++ quoted "tag4" ++ lit ", "
      ++ quoted "tag5" ++ lit "]";
    lit "}";
    [];
    lit "Write as much detail as allowed by the limits. Avoid generic filler." ].

Definition buildPrompt (titleLength descriptionLength tagsLength : Z) : jsstring :=
  join newline (promptLines titleLength descriptionLength tagsLength).

(** [Math.max(512, Math.ceil((descriptionLength + titleLength) / 2) + 256)]:
    the sum is rounded to binary64, halving it and taking the ceiling
    are exact, and adding 256 rounds again.  An infinite sum stays
    infinite, and [Math.max] prefers 512 to the negative infinity. *)
Definition generationTokens (titleLength descriptionLength : Z) : Number :=
  match binary64 (descriptionLength + titleLength) with
  | Finite sum =>
      match binary64 (Qceiling (inject_Z sum / 2) + 256) with
      | Finite tokens => Finite (Z.max 512 tokens)
      | Infinite negative => if negative then Finite 512 else Infinite false
      end
  | Infinite negative => if negative then Finite 512 else Infinite false
  end.

#[local] Set Warnings "-inexact-float".

(** The literal [0.9] of the source, a binary64 number as in JavaScript. *)
Definition generationTemperature : PrimFloat.float := 0.9%float.

Definition safeMime (mimeType : JSValue) : jsstring :=
  match mimeType with
  | JString m => if startsWith m (lit "image/") then m else lit "image/jpeg"
  | _ => lit "image/jpeg"
  end.

Definition buildRequest (body : RequestBody) : GenRequest :=
  {| prompt := buildPrompt (titleLength body) (descriptionLength body) (tagsLength body);
     inlineData := image body;
     inlineMime := safeMime (mimeType body);
     maxOutputTokens := generationTokens (titleLength body) (descriptionLength body);
     temperature := generationTemperature |}.

(** [s.length > limit ? s.substring(0, limit - 3) + '...' : s] on a string. *)
Definition ellipsize (s : jsstring) (limit : Z) : jsstring :=
  if jslen s >? limit then substring s 0 (limit - 3) ++ lit "..." else s.

(** The tags that pass
    [filter(t => typeof t === 'string' && t.trim().length > 0)]. *)
Fixpoint stringTags (tags : list JSValue) : list jsstring :=
  match tags with
  | [] => []
  | JString t :: rest =>
      if jslen (trim t) >? 0 then t :: stringTags rest else stringTags rest
  | _ :: rest => stringTags rest
  end.

(** [t.replace(/[#\s]+/g, ' ').trim()] *)
Definition normalizeTag (t : jsstring) : jsstring := trim (replace_hash_ws t).

Definition normalizedTags (tags : list JSValue) : list jsstring :=
  List.map normalizeTag (stringTags tags).

(** The accumulation loop from index [i] with [currentLength] used:
    the tags pushed onto [finalTags] from there on. *)
Fixpoint accumulate (tagsLength : Z) (i : nat) (currentLength : Z)
    (normalized : list jsstring) : list jsstring :=
  match normalized with
  | [] => []
  | tag :: rest =>
      let separatorLength := if Nat.eqb i 0 then 0 else 2 in
      if currentLength + separatorLength + jslen tag <=? tagsLength
      then tag :: accumulate tagsLength (S i) (currentLength + separatorLength + jslen tag) rest
      else []
  end.

Definition finalTags (tagsLength : Z) (normalized : list jsstring) : list jsstring :=
  accumulate tagsLength 0 0 normalized.

(** The shape a normalised tag has: every code unit of the class [[#\s]]
    is a space that does not follow another space, and neither end is
    white space.  [after_space] tells that the previous code unit was a
    space. *)
Fixpoint collapsed_from (after_space : bool) (s : jsstring) : bool :=
  match s with
  | [] => true
  | c :: r =>
      if hash_or_ws c
      then (c =? space)%N && negb after_space && collapsed_from true r
      else collapsed_from false r
  end.

Definition collapsed (s : jsstring) : bool := collapsed_from false s.

Definition starts_with_ws (s : jsstring) : bool :=
  match s with
  | c :: _ => is_ws c
  | [] => false
  end.

Definition ends_with_ws (s : jsstring) : bool := starts_with_ws (rev s).

Definition normalForm (s : jsstring) : Prop :=
  collapsed s = true /\ starts_with_ws s = false /\ ends_with_ws s = false.

(** The code units that the replacement leaves alone. *)
Definition outside_class (c : N) : bool := negb (hash_or_ws c).

Definition comma_space : jsstring := lit ", ".

(** The length of the tags as rendered, joined with a comma and a space. *)
Definition joinedLength (tags : list jsstring) : Z := jslen (join comma_space tags).

Definition fallbackTitle (titleLength : Z) : jsstring :=
  lit "Image Analysis (" ++ (if titleLength >? 30 then lit "Processing Complete" else lit "Analyzed")
    ++ lit ")".

Definition fallbackDescription : jsstring :=
  lit "The image has been processed and analyzed with detailed consideration of visual elements, composition, colors, and context.".

Definition fallbackTags : list jsstring :=
  [ lit "Image Analysis"; lit "Visual Processing"; lit "AI Detection" ].

(** The object built in the [catch (apiError)] block. *)
Definition fallbackResult (titleLength descriptionLength : Z) : AnalysisResult :=
  {| title := JString (ellipsize (fallbackTitle titleLength) titleLength);
     description := JString (ellipsize fallbackDescription descriptionLength);
     tags := fallbackTags |}.

Definition badRequest : Response :=
  {| status := 400; payload := JObject [ (lit "error", JString (lit "No image provided")) ] |}.

Definition ok (r : AnalysisResult) : Response :=
  {| status := 200; payload := result_json r |}.

Section Pipeline.

(** [JSON.parse]: [None] when it throws a SyntaxError. *)
Variable JSON_parse : jsstring -> option JSValue.

(** The comparison [v > n] of the language for a value [v] that is the
    [length] property of an object. *)
Variable js_gt : JSValue -> Z -> bool.

(** The JSON Extractor: the match, then the parse of the matched span. *)
Definition parseSpan (span : jsstring) : Completion JSValue :=
  match JSON_parse span with
  | Some v => Normal v
  | None => Throw (Error (lit "Failed to parse Gemini API response"))
  end.

Definition extractJson (text : jsstring) : Completion JSValue :=
  match brace_match text with
  | None => Throw (Error (lit "Invalid response format from Gemini API"))
  | Some span => parseSpan span
  end.

(** [const { title, description, tags } = geminiResult] *)
Definition destructure (v : JSValue) : Completion (JSValue * JSValue * JSValue) :=
  match v with
  | JUndefined | JNull => Throw TypeError
  | JObject props =>
      Normal (get_prop (lit "title") props,
              get_prop (lit "description") props,
              get_prop (lit "tags") props)
  | _ => Normal (JUndefined, JUndefined, JUndefined)
  end.

(** [!title || !description || !Array.isArray(tags)] *)
Definition invalidShape (title description tags : JSValue) : bool :=
  negb (truthy title) || negb (truthy description) || negb (isArray tags).

(** [v.length > limit ? v.substring(0, limit - 3) + '...' : v] on any
    value: only a string has [substring]; a number or boolean has no
    [length], and [undefined > limit] is false. *)
Definition fitField (v : JSValue) (limit : Z) : Completion JSValue :=
  match v with
  | JUndefined | JNull => Throw TypeError
  | JString s => Normal (JString (ellipsize s limit))
  | JArray elems =>
      if Z.of_nat (List.length elems) >? limit then Throw TypeError else Normal v
  | JObject props =>
      match get_prop (lit "length") props with
      | JUndefined => Normal v
      | len => if js_gt len limit then Throw TypeError else Normal v
      end
  | JBool _ | JNumber _ => Normal v
  end.

(** The Field Fitter: lines 108 to 134 on a candidate that passed the
    shape check. *)
Definition fitFields (title description : JSValue) (tags : list JSValue)
    (titleLength descriptionLength tagsLength : Z) : Completion AnalysisResult :=
  finalTitle <- fitField title titleLength ;;
  finalDescription <- fitField description descriptionLength ;;
  Normal {| title := finalTitle;
            description := finalDescription;
            tags := finalTags tagsLength (normalizedTags tags) |}.

(** Shape check, then fitting. *)
Definition shapeCandidate (candidate : JSValue)
    (titleLength descriptionLength tagsLength : Z) : Completion AnalysisResult :=
  '(title, description, tags) <- destructure candidate ;;
  if invalidShape title description tags
  then Throw (Error (lit "Invalid response structure from Gemini API"))
  else match tags with
       | JArray elems => fitFields title description elems titleLength descriptionLength tagsLength
       | _ => Throw TypeError
       end.

(** The inner [try] block from the model's answer on. *)
Definition shapeCompletion (answer : Completion jsstring)
    (titleLength descriptionLength tagsLength : Z) : Completion AnalysisResult :=
  text <- answer ;;
  candidate <- extractJson text ;;
  shapeCandidate candidate titleLength descriptionLength tagsLength.

(** The handler.  With limits that are numbers nothing throws outside
    the inner [try] block, and nothing throws in its [catch] block, so
    the outer [catch] with its status 500 is not reached and is left
    out. *)
Definition analyzeImage (body : RequestBody) : Prog Response :=
  if negb (truthy (image body))
  then Ret badRequest
  else Generate (buildRequest body) (fun answer =>
         match shapeCompletion answer (titleLength body) (descriptionLength body)
                 (tagsLength body) with
         | Normal finalResult => Ret (ok finalResult)
         | Throw _ =>
             Ret (ok (fallbackResult (titleLength body) (descriptionLength body)))
         end).

(** The shape check rejects the candidate. *)
Definition shapeRejected (candidate : JSValue) : Prop :=
  exists title description tags,
    destructure candidate = Normal (title, description, tags) /\
    invalidShape title description tags = true.

(** The four failures the fallback recovers from: the call to the model,
    the extraction of a span, its parse, and the shape check. *)
Inductive PipelineFailure : Completion jsstring -> Prop :=
| CallFailed (e : Exn) :
    PipelineFailure (Throw e)
| ExtractionFailed (text : jsstring) :
    brace_match text = None ->
    PipelineFailure (Normal text)
| ParseFailed (text span : jsstring) :
    brace_match text = Some span ->
    JSON_parse span = None ->
    PipelineFailure (Normal text)
| ShapeFailed (text span : jsstring) (candidate : JSValue) :
    brace_match text = Some span ->
    JSON_parse span = Some candidate ->
    shapeRejected candidate ->
    PipelineFailure (Normal text).

End Pipeline.

(** ** A reader for JSON texts

    [JSON.parse] is a parameter of the pipeline.  To run the pipeline on
    the scenarios of the specification it is instantiated with this
    reader, which accepts objects, arrays, strings with their escapes,
    the three literals and integer numbers below 2^53 written without
    fraction or exponent, and rejects every other text. *)

Module JsonReader.

Definition json_ws (c : N) : bool := ((c =? 32) || (c =? 9) || (c =? 10) || (c =? 13))%N.

Fixpoint skip_ws (s : jsstring) : jsstring :=
  match s with
  | c :: r => if json_ws c then skip_ws r else s
  | [] => []
  end.

Definition hex_digit (c : N) : option N :=
  (if (48 <=? c) && (c <=? 57) then Some (c - 48)
   else if (65 <=? c) && (c <=? 70) then Some (c - 55)
   else if (97 <=? c) && (c <=? 102) then Some (c - 87)
   else None)%N.

Definition hex4 (a b c d : N) : option N :=
  match hex_digit a, hex_digit b, hex_digit c, hex_digit d with
  | Some x, Some y, Some z, Some w => Some (((x * 16 + y) * 16 + z) * 16 + w)%N
  | _, _, _, _ => None
  end.

Definition escape (c : N) : option N :=
  (if c =? 34 then Some 34 else if c =? 92 then Some 92 else if c =? 47 then Some 47
   else if c =? 98 then Some 8 else if c =? 102 then Some 12 else if c =? 110 then Some 10
   else if c =? 114 then Some 13 else if c =? 116 then Some 9 else None)%N.

(** The characters of a string after its opening quote, and the rest. *)
Fixpoint read_string (acc : jsstring) (s : jsstring) : option (jsstring * jsstring) :=
  match s with
  | [] => None
  | c :: r =>
      if (c =? 34)%N then Some (rev acc, r)
      else if (c =? 92)%N then
        match r with
        | e :: r' =>
            if (e =? 117)%N then
              match r' with
              | a :: b :: c' :: d :: r'' =>
                  match hex4 a b c' d with
                  | Some u => read_string (u :: acc) r''
                  | None => None
                  end
              | _ => None
              end
            else match escape e with
                 | Some u => read_string (u :: acc) r'
                 | None => None
                 end
        | [] => None
        end
      else if (c <? 32)%N then None
      else read_string (c :: acc) r
  end.

Definition is_digit (c : N) : bool := ((48 <=? c) && (c <=? 57))%N.

Fixpoint read_digits (acc : Z) (s : jsstring) : Z * jsstring :=
  match s with
  | c :: r => if is_digit c then read_digits (acc * 10 + Z.of_N (c - 48)) r else (acc, s)
  | [] => (acc, [])
  end.

Definition float_of_nonneg (n : Z) : option PrimFloat.float :=
  if n <? 2 ^ 53 then Some (PrimFloat.of_uint63 (Uint63.of_Z n)) else None.

(** An integer literal: no leading zero, no fraction, no exponent. *)
Definition read_integer (s : jsstring) : option (PrimFloat.float * jsstring) :=
  let (negative, s1) :=
    match s with
    | c :: r => if (c =? 45)%N then (true, r) else (false, s)
    | [] => (false, s)
    end in
  match s1 with
  | d :: r =>
      if negb (is_digit d) then None
      else
        let (n, rest) := read_digits 0 s1 in
        let leading_zero := (d =? 48)%N && negb (List.length rest =? List.length r)%nat in
        let more := match rest with
                    | c :: _ => (c =? 46)%N || (c =? 101)%N || (c =? 69)%N
                    | [] => false
                    end in
        if leading_zero || more then None
        else match float_of_nonneg n with
             | Some x => Some (if negative then PrimFloat.opp x else x, rest)
             | None => None
             end
  | [] => None
  end.

Definition expect (word : string) (v : JSValue) (s : jsstring) : option (JSValue * jsstring) :=
  if startsWith s (lit word)
  then Some (v, skipn (List.length (lit word)) s)
  else None.

(** A later member with the same key replaces the earlier value. *)
Fixpoint set_prop (k : jsstring) (v : JSValue) (props : list (jsstring * JSValue))
  : list (jsstring * JSValue) :=
  match props with
  | [] => [(k, v)]
  | (k', v') :: rest =>
      if JsString.eqb k k' then (k', v) :: rest else (k', v') :: set_prop k v rest
  end.

Fixpoint read_value (fuel : nat) (s : jsstring) : option (JSValue * jsstring) :=
  match fuel with
  | O => None
  | S fuel' =>
      match skip_ws s with
      | [] => None
      | c :: r =>
          if (c =? 34)%N then
            match read_string [] r with
            | Some (str, rest) => Some (JString str, rest)
            | None => None
            end
          else if (c =? 123)%N then
            match skip_ws r with
            | c' :: r' =>
                if (c' =? 125)%N then Some (JObject [], r')
                else read_members fuel' [] r
            | [] => None
            end
          else if (c =? 91)%N then
            match skip_ws r with
            | c' :: r' =>
                if (c' =? 93)%N then Some (JArray [], r')
                else read_elements fuel' [] r
            | [] => None
            end
          else if (c =? 116)%N then expect "true" (JBool true) (c :: r)
          else if (c =? 102)%N then expect "false" (JBool false) (c :: r)
          else if (c =? 110)%N then expect "null" JNull (c :: r)
          else match read_integer (c :: r) with
               | Some (x, rest) => Some (JNumber x, rest)
               | None => None
               end
      end
  end
with read_elements (fuel : nat) (acc : list JSValue) (s : jsstring)
  : option (JSValue * jsstring) :=
  match fuel with
  | O => None
  | S fuel' =>
      match read_value fuel' s with
      | Some (v, rest) =>
          match skip_ws rest with
          | c :: r =>
              if (c =? 44)%N then read_elements fuel' (v :: acc) r
              else if (c =? 93)%N then Some (JArray (rev (v :: acc)), r)
              else None
          | [] => None
          end
      | None => None
      end
  end
with read_members (fuel : nat) (acc : list (jsstring * JSValue)) (s : jsstring)
  : option (JSValue * jsstring) :=
  match fuel with
  | O => None
  | S fuel' =>
      match skip_ws s with
      | q :: r =>
          if (q =? 34)%N then
            match read_string [] r with
            | Some (key, rest) =>
                match skip_ws rest with
                | colon :: r' =>
                    if (colon =? 58)%N then
                      match read_value fuel' r' with
                      | Some (v, rest') =>
                          match skip_ws rest' with
                          | c :: r'' =>
                              if (c =? 44)%N then read_members fuel' (set_prop key v acc) r''
                              else if (c =? 125)%N then Some (JObject (set_prop key v acc), r'')
                              else None
                          | [] => None
                          end
                      | None => None
                      end
                    else None
                | [] => None
                end
            | None => None
            end
          else None
      | [] => None
      end
  end.

(** The whole text must be one value, surrounded by white space only. *)
Definition parse (text : jsstring) : option JSValue :=
  match read_value (S (List.length text)) text with
  | Some (v, rest) => match skip_ws rest with [] => Some v | _ :: _ => None end
  | None => None
  end.

(** An instance of the comparison for the scenarios: ToNumber of [null]
    and of a boolean; the scenarios compare nothing else. *)
Definition gt (v : JSValue) (n : Z) : bool :=
  match v with
  | JNull => 0 >? n
  | JBool b => (if b then 1 else 0) >? n
  | _ => false
  end.

End JsonReader.

(** ** The scenarios of the specification, as data *)

Module Scenario.

Definition str (s : string) : JSValue := JString (lit s).

(** A request with an image and the given three limits. *)
Definition request (titleLength descriptionLength tagsLength : Z) : RequestBody :=
  {| image := str "iVBORw0KGgo=";
     mimeType := str "image/png";
     titleLength := titleLength;
     descriptionLength := descriptionLength;
     tagsLength := tagsLength |}.

(** A request whose body has no [image] field. *)
Definition requestWithoutImage : RequestBody :=
  {| image := JUndefined;
     mimeType := JUndefined;
     titleLength := 120;
     descriptionLength := 600;
     tagsLength := 60 |}.

(** A model that answers [text] whatever it is asked, and one whose call
    fails. *)
Definition answering (text : jsstring) : GenRequest -> Completion jsstring :=
  fun _ => Normal text.

Definition unreachable : GenRequest -> Completion jsstring :=
  fun _ => Throw (Error (lit "fetch failed")).

Definition member (key : string) (value : jsstring) : jsstring :=
  quoted key ++ lit ":" ++ value.

(** Scenario A: a JSON object wrapped in prose. *)
Definition spanA : jsstring :=
  lit "{" ++ member "title" (quoted "A cat on a mat") ++ lit ","
    ++ member "description"
         (quoted "A small orange cat sits on a blue mat in a sunlit room.") ++ lit ","
    ++ member "tags"
         (lit "[" ++ quoted "cat" ++ lit "," ++ quoted "mat" ++ lit ","
            ++ quoted "indoor" ++ lit "," ++ quoted "pet" ++ lit "]")
    ++ lit "}".

Definition rawA : jsstring := lit "Sure! " ++ spanA ++ lit " Hope that helps!".

Definition candidateA : JSValue :=
  JObject [ (lit "title", str "A cat on a mat");
            (lit "description", str "A small orange cat sits on a blue mat in a sunlit room.");
            (lit "tags", JArray [str "cat"; str "mat"; str "indoor"; str "pet"]) ].

Definition resultA : AnalysisResult :=
  {| title := str "A cat on a mat";
     description := str "A small orange cat sits on a blue mat...";
     tags := [lit "cat"; lit "mat"; lit "indoor"] |}.

(** Scenario B: no opening brace at all. *)
Definition rawB : jsstring := lit "I cannot describe this image.".

(** Scenario C: the tags are missing. *)
Definition rawC : jsstring :=
  lit "{" ++ member "title" (quoted "X") ++ lit "," ++ member "description" (quoted "Y")
    ++ lit "}".

Definition candidateC : JSValue :=
  JObject [ (lit "title", str "X"); (lit "description", str "Y") ].

(** A candidate whose title is the boolean [true]. *)
Definition rawBooleanTitle : jsstring :=
  lit "{" ++ member "title" (lit "true") ++ lit "," ++ member "description" (quoted "d")
    ++ lit "," ++ member "tags" (lit "[]") ++ lit "}".

(** A candidate with a tag made of a hash sign only. *)
Definition rawHashTags : jsstring :=
  lit "{" ++ member "title" (quoted "T") ++ lit "," ++ member "description" (quoted "D")
    ++ lit "," ++ member "tags" (lit "[" ++ quoted "#" ++ lit "," ++ quoted "a" ++ lit "]")
    ++ lit "}".

(** A candidate whose title has four characters. *)
Definition rawFourLetterTitle : jsstring :=
  lit "{" ++ member "title" (quoted "abcd") ++ lit "," ++ member "description" (quoted "d")
    ++ lit "," ++ member "tags" (lit "[]") ++ lit "}".

(** A fitted result read back as the candidate of a second fitting. *)
Definition refit (js_gt : JSValue -> Z -> bool) (r : AnalysisResult)
    (titleLength descriptionLength tagsLength : Z) : Completion AnalysisResult :=
  fitFields js_gt (title r) (description r) (List.map JString (tags r))
    titleLength descriptionLength tagsLength.

End Scenario.

(** ** The browser client (App.js)

    The component keeps seven pieces of state and reaches the outside
    through four operations: the connectivity probe [fetch('/api/test')],
    the file input of the page, a [FileReader], and the POST to
    [/api/analyze-image].  A handler is an interaction tree over these
    four; running it against a browser gives what it returns and the
    requests it sent.  A state setter called by a handler is recorded as
    an update, and the updates are applied in the order of the calls.
    [console] calls are not modelled. *)

Module Client.

(** [s.split(sep)] for a separator of one code unit. *)
Fixpoint split_on (sep : N) (s : jsstring) : list jsstring :=
  match s with
  | [] => [[]]
  | c :: r =>
      if (c =? sep)%N then [] :: split_on sep r
      else match split_on sep r with
           | p :: ps => (c :: p) :: ps
           | [] => [[c]]
           end
  end.

Definition comma : N := 44%N.

(** [reader.result.split(',')[1]] *)
Definition dataUrlPayload (result : jsstring) : JSValue :=
  match split_on comma result with
  | _ :: payload :: _ => JString payload
  | _ => JUndefined
  end.

(** What a [catch] clause of the client can receive: an [Error] of any
    class with its message, or the event a [FileReader] rejects with,
    which has no [message]. *)
Inductive Thrown : Type :=
| ErrorObject (message : jsstring)
| ProgressEvent.

Inductive Outcome (A : Type) : Type :=
| Returned (a : A)
| Raised (e : Thrown).

Arguments Returned {A} a.
Arguments Raised {A} e.

(** [`${error.message}`] *)
Definition messageText (e : Thrown) : jsstring :=
  match e with
  | ErrorObject message => message
  | ProgressEvent => lit "undefined"
  end.

(** [error?.message || ''] *)
Definition messageOrEmpty (e : Thrown) : jsstring :=
  match e with
  | ErrorObject message => message
  | ProgressEvent => []
  end.

(** The comparison of a regular expression with the [i] flag and without
    the [u] flag, for a pattern of ASCII characters: a code unit matches
    a pattern character when both have the same upper-case form, and a
    code unit outside ASCII matches none. *)
Definition foldCase (c : N) : N :=
  if ((97 <=? c) && (c <=? 122))%N then (c - 32)%N else c.

(** The pattern matches at the start of [s]. *)
Fixpoint matchesAt (pattern s : jsstring) : bool :=
  match pattern, s with
  | [], _ => true
  | _ :: _, [] => false
  | p :: ps, c :: cs => (foldCase p =? foldCase c)%N && matchesAt ps cs
  end.

(** [/a1|a2|.../i.test(s)]: some alternative matches at some position. *)
Fixpoint regexTest (alternatives : list jsstring) (s : jsstring) : bool :=
  existsb (fun a => matchesAt a s) alternatives
  || match s with
     | [] => false
     | _ :: r => regexTest alternatives r
     end.

(** [/Failed to fetch|NetworkError|TypeError: Failed to fetch/i] *)
Definition networkErrorPattern : list jsstring :=
  [ lit "Failed to fetch"; lit "NetworkError"; lit "TypeError: Failed to fetch" ].

Definition isNetworkError (message : jsstring) : bool :=
  regexTest networkErrorPattern message.

Definition cannotReach : jsstring :=
  lit "Cannot reach the AI server. Make sure it is running (npm run server) and that you opened the app via npm start, not the HTML file.".

(** The file of the input element: [name], [size] and [type]. *)
Record File : Type := mkFile {
  fileName : jsstring;
  fileSize : Z;
  fileType : jsstring
}.

(** What [response.json()] settles to. *)
Inductive BodyJson : Type :=
| JsonValue (v : JSValue)
| JsonFailure (message : jsstring).

(** What [fetch] settles to: a rejection with a [TypeError], or a response. *)
Inductive FetchOutcome : Type :=
| NetworkFailure (message : jsstring)
| HttpResponse (status : Z) (body : BodyJson).

(** [response.ok] *)
Definition response_ok (status : Z) : bool := (200 <=? status) && (status <=? 299).

(** What the [FileReader] does with [readAsDataURL]: [onload] with the
    data URL in [reader.result], or [onerror]. *)
Inductive ReadOutcome : Type :=
| Loaded (result : jsstring)
| ReadFailed.

Inductive Prog (A : Type) : Type :=
| Done (a : A)
| FetchTest (k : FetchOutcome -> Prog A)
| SelectedFile (k : option File -> Prog A)
| ReadAsDataURL (file : File) (k : ReadOutcome -> Prog A)
| PostAnalyze (body : RequestBody) (k : FetchOutcome -> Prog A).

Arguments Done {A} a.
Arguments FetchTest {A} k.
Arguments SelectedFile {A} k.
Arguments ReadAsDataURL {A} file k.
Arguments PostAnalyze {A} body k.

Fixpoint andThen {A B : Type} (p : Prog A) (f : A -> Prog B) : Prog B :=
  match p with
  | Done a => f a
  | FetchTest k => FetchTest (fun o => andThen (k o) f)
  | SelectedFile k => SelectedFile (fun o => andThen (k o) f)
  | ReadAsDataURL file k => ReadAsDataURL file (fun o => andThen (k o) f)
  | PostAnalyze body k => PostAnalyze body (fun o => andThen (k o) f)
  end.

(** The requests a handler sends. *)
Inductive Request : Type :=
| GetTest
| PostAnalyzeImage (body : RequestBody).

(** The surroundings of one run of a handler. *)
Record Browser : Type := mkBrowser {
  connectivity : FetchOutcome;
  chosenFile : option File;
  fileReader : File -> ReadOutcome;
  backend : RequestBody -> FetchOutcome
}.

Fixpoint run {A : Type} (env : Browser) (p : Prog A) : A * list Request :=
  match p with
  | Done a => (a, [])
  | FetchTest k =>
      let (a, sent) := run env (k (connectivity env)) in (a, GetTest :: sent)
  | SelectedFile k => run env (k (chosenFile env))
  | ReadAsDataURL file k => run env (k (fileReader env file))
  | PostAnalyze body k =>
      let (a, sent) := run env (k (backend env body)) in (a, PostAnalyzeImage body :: sent)
  end.

(** The state of the component. *)
Record State : Type := mkState {
  image : JSValue;
  titleLength : Z;
  descriptionLength : Z;
  tagsLength : Z;
  isProcessing : bool;
  results : JSValue;
  error : JSValue
}.

(** [useState] initial values. *)
Definition initialState : State :=
  {| image := JNull; titleLength := 120; descriptionLength := 600; tagsLength := 60;
     isProcessing := false; results := JNull; error := JNull |}.

(** A call of a state setter. *)
Inductive Update : Type :=
| SetImage (v : JSValue)
| SetTitleLength (n : Z)
| SetDescriptionLength (n : Z)
| SetTagsLength (n : Z)
| SetIsProcessing (b : bool)
| SetResults (v : JSValue)
| SetError (v : JSValue).

Definition apply (st : State) (u : Update) : State :=
  match u with
  | SetImage v =>
      mkState v (titleLength st) (descriptionLength st) (tagsLength st)
        (isProcessing st) (results st) (error st)
  | SetTitleLength n =>
      mkState (image st) n (descriptionLength st) (tagsLength st)
        (isProcessing st) (results st) (error st)
  | SetDescriptionLength n =>
      mkState (image st) (titleLength st) n (tagsLength st)
        (isProcessing st) (results st) (error st)
  | SetTagsLength n =>
      mkState (image st) (titleLength st) (descriptionLength st) n
        (isProcessing st) (results st) (error st)
  | SetIsProcessing b =>
      mkState (image st) (titleLength st) (descriptionLength st) (tagsLength st)
        b (results st) (error st)
  | SetResults v =>
      mkState (image st) (titleLength st) (descriptionLength st) (tagsLength st)
        (isProcessing st) v (error st)
  | SetError v =>
      mkState (image st) (titleLength st) (descriptionLength st) (tagsLength st)
        (isProcessing st) (results st) v
  end.

Definition applyAll (st : State) (updates : list Update) : State :=
  fold_left apply updates st.

(** [handleImageChange]: [file] is [e.target.files[0]] and [objectUrl]
    what [URL.createObjectURL] returns for it. *)
Definition handleImageChange (file : option File) (objectUrl : jsstring) : list Update :=
  match file with
  | Some _ => [ SetImage (JString objectUrl); SetResults JNull; SetError JNull ]
  | None => []
  end.

(** [convertFileToBase64] *)
Definition convertFileToBase64 (file : File) : Prog (Outcome JSValue) :=
  ReadAsDataURL file (fun r =>
    match r with
    | Loaded result => Done (Returned (dataUrlPayload result))
    | ReadFailed => Done (Raised ProgressEvent)
    end).

(** The [onChange] handlers of the three sliders:
    [setTitleLength(Number(e.target.value))] and its two siblings, for
    a value that is the numeral of the integer [value].  The element,
    not the handler, keeps the value between its [min] and [max]. *)
Definition slideTitle (value : Z) : list Update := [ SetTitleLength value ].
Definition slideDescription (value : Z) : list Update := [ SetDescriptionLength value ].
Definition slideTags (value : Z) : list Update := [ SetTagsLength value ].

(** [disabled={!image || isProcessing}] of the button. *)
Definition buttonDisabled (st : State) : bool := negb (truthy (image st)) || isProcessing st.

Section Engine.

(** The message of the [TypeError] raised when a property is read from
    [undefined] or [null]: the value and the property name decide it,
    and engines word it differently. *)
Variable readFailure : JSValue -> jsstring -> jsstring.

(** The text a template literal renders for a truthy value that is a
    number, an array or an object (it may throw for an object). *)
Variable otherText : JSValue -> Outcome jsstring.

(** [errorData.error] *)
Definition errorField (errorData : JSValue) : Outcome JSValue :=
  match errorData with
  | JUndefined | JNull => Raised (ErrorObject (readFailure errorData (lit "error")))
  | JObject props => Returned (get_prop (lit "error") props)
  | _ => Returned JUndefined
  end.

(** [`${errorData.error || 'Unknown error'}`] *)
Definition errorText (field : JSValue) : Outcome jsstring :=
  if truthy field
  then match field with
       | JString s => Returned s
       | JBool _ => Returned (lit "true")
       | _ => otherText field
       end
  else Returned (lit "Unknown error").

(** The [try] block of [analyzeImageWithAPI] once [fetch] has settled. *)
Definition readResponse (outcome : FetchOutcome) : Outcome JSValue :=
  match outcome with
  | NetworkFailure message => Raised (ErrorObject message)
  | HttpResponse status body =>
      if response_ok status
      then match body with
           | JsonValue result => Returned result
           | JsonFailure message => Raised (ErrorObject message)
           end
      else match body with
           | JsonFailure message => Raised (ErrorObject message)
           | JsonValue errorData =>
               match errorField errorData with
               | Raised e => Raised e
               | Returned field =>
                   match errorText field with
                   | Raised e => Raised e
                   | Returned text =>
                       Raised (ErrorObject (lit "Server error: " ++ numberText status
                                              ++ lit " - " ++ text))
                   end
               end
           end
  end.

(** The [catch] block of [analyzeImageWithAPI]. *)
Definition rethrow {A : Type} (o : Outcome A) : Outcome A :=
  match o with
  | Returned a => Returned a
  | Raised e =>
      if isNetworkError (messageOrEmpty e)
      then Raised (ErrorObject cannotReach)
      else Raised e
  end.

(** [analyzeImageWithAPI], with the three limits of the state it closes
    over.  Reading [base64Image.length] for the log throws when the
    image is [undefined]. *)
Definition analyzeImageWithAPI (st : State) (base64Image : JSValue) (mimeType : jsstring)
  : Prog (Outcome JSValue) :=
  match base64Image with
  | JUndefined | JNull =>
      Done (rethrow (Raised (ErrorObject (readFailure base64Image (lit "length")))))
  | _ =>
      PostAnalyze (mkRequestBody base64Image (JString mimeType)
                     (titleLength st) (descriptionLength st) (tagsLength st))
        (fun outcome => Done (rethrow (readResponse outcome)))
  end.

(** The [try] block of [handleGenerateResults]. *)
Definition processImage (st : State) : Prog (Outcome JSValue) :=
  FetchTest (fun _ =>
  SelectedFile (fun file =>
    match file with
    | None => Done (Raised (ErrorObject (lit "No file selected")))
    | Some f =>
        andThen (convertFileToBase64 f) (fun converted =>
          match converted with
          | Raised e => Done (Raised e)
          | Returned base64Image => analyzeImageWithAPI st base64Image (fileType f)
          end)
    end)).

(** The setter calls of [handleGenerateResults], in their order. *)
Definition handleGenerateResults (st : State) : Prog (list Update) :=
  if negb (truthy (image st))
  then Done [ SetError (JString (lit "Please upload an image first!")) ]
  else
    andThen (processImage st) (fun outcome =>
      Done ([ SetIsProcessing true; SetError JNull ]
            ++ match outcome with
               | Returned results => [ SetResults results ]
               | Raised e =>
                   [ SetError (JString (lit "Error processing image: " ++ messageText e
                                          ++ lit ". Please try again.")) ]
               end
            ++ [ SetIsProcessing false ])).

End Engine.

End Client.

(** What the other end reads back from the JSON text of a value:
    [JSON.stringify] writes a number that is not finite as [null] and
    the negative zero as [0], leaves out a property whose value is
    [undefined], and writes [undefined] in an array as [null]. *)
Fixpoint wire (v : JSValue) : JSValue :=
  match v with
  | JUndefined => JUndefined
  | JNull => JNull
  | JBool b => JBool b
  | JNumber x =>
      if PrimFloat.is_nan x || PrimFloat.is_infinity x then JNull
      else if PrimFloat.is_zero x then JNumber PrimFloat.zero
      else JNumber x
  | JString s => JString s
  | JArray elems =>
      JArray (List.map (fun e => match e with JUndefined => JNull | _ => wire e end) elems)
  | JObject props =>
      JObject ((fix members (ps : list (jsstring * JSValue)) : list (jsstring * JSValue) :=
                  match ps with
                  | [] => []
                  | (k, JUndefined) :: rest => members rest
                  | (k, e) :: rest => (k, wire e) :: members rest
                  end) props)
  end.

(** The backend of the client when the server runs the handler above
    against [model], for a request the JSON middleware lets through
    (it refuses a body above 25 MB before the handler runs): the
    request body and the answer both travel as JSON text. *)
Definition served (JSON_parse : jsstring -> option JSValue) (js_gt : JSValue -> Z -> bool)
    (model : GenRequest -> Completion jsstring) (body : RequestBody) : Client.FetchOutcome :=
  let received :=
    mkRequestBody (wire (image body)) (wire (mimeType body))
      (titleLength body) (descriptionLength body) (tagsLength body) in
  let response := fst (run model (analyzeImage JSON_parse js_gt received)) in
  Client.HttpResponse (status response) (Client.JsonValue (wire (payload response))).

(** [undefined] or [null]: the values a property cannot be read from. *)
Definition nullish (v : JSValue) : bool :=
  match v with JUndefined | JNull => true | _ => false end.

(** The four fixed parts of the instruction text, between which the
    three limits stand. *)
Definition promptHead : jsstring :=
  lit "Analyze this image in detail and provide:" ++ newline ++ newline
    ++ lit "1. A concise yet descriptive title (max ".

Definition promptSecond : jsstring :=
  lit " characters)" ++ newline ++ lit "2. A comprehensive description (max ".

Definition promptThird : jsstring :=
  lit " characters) including:" ++ newline
    ++ lit "   - Visible elements (objects, people, actions, text)" ++ newline
    ++ lit "   - Colors, composition, setting/context" ++ newline
    ++ lit "   - Mood/tone and notable details" ++ newline
    ++ lit "   - If text exists, transcribe briefly" ++ newline
    ++ lit "3. A list of short, relevant tags (letters only, no hashes), staying within ".

Definition promptTail : jsstring :=
  lit " total characters when joined by commas" ++ newline ++ newline
    ++ lit "Output strictly as JSON with exactly:" ++ newline
    ++ lit "{" ++ newline
    ++ lit "  " ++ quoted "title" ++ lit ": " ++ quoted "..." ++ lit "," ++ newline
    ++ lit "  " ++ quoted "description" ++ lit ": " ++ quoted "..." ++ lit "," ++ newline
    ++ lit "  " ++ quoted "tags" ++ lit ": [" ++ quoted "tag1" ++ lit ", " ++ quoted "tag2"
    ++ lit ", " ++ quoted "tag3" ++ lit ", " ++ quoted "tag4" ++ lit ", "
    ++ quoted "tag5" ++ lit "]" ++ newline
    ++ lit "}" ++ newline ++ newline
    ++ lit "Write as much detail as allowed by the limits. Avoid generic filler.".

(** ** A browser and a file, as data *)

Module ClientScenario.

(** The wording of one engine for a property read from [undefined] or
    [null]. *)
Definition readFailure (v : JSValue) (property : jsstring) : jsstring :=
  lit "Cannot read properties of "
    ++ match v with JNull => lit "null" | _ => lit "undefined" end
    ++ lit " (reading '" ++ property ++ lit "')".

(** An instance of the rendering of numbers, arrays and objects for the
    scenarios, which render none. *)
Definition otherText (v : JSValue) : Client.Outcome jsstring :=
  Client.Returned (lit "[object Object]").

Definition png : Client.File :=
  {| Client.fileName := lit "cat.png"; Client.fileSize := 8;
     Client.fileType := lit "image/png" |}.

Definition header : jsstring := lit "data:image/png;base64".
Definition payload : jsstring := lit "iVBORw0KGgo=".

(** The initial state after a file was chosen. *)
Definition selected : Client.State :=
  Client.apply Client.initialState (Client.SetImage (JString (lit "blob:http://localhost:3000/1"))).

(** A browser whose probe fails, whose input holds [png], and whose
    backend is the handler with the reader for JSON of this file and a
    model that answers Scenario A. *)
Definition browser : Client.Browser :=
  {| Client.connectivity := Client.NetworkFailure (lit "Failed to fetch");
     Client.chosenFile := Some png;
     Client.fileReader := fun _ => Client.Loaded (header ++ Client.comma :: payload);
     Client.backend :=
       served JsonReader.parse JsonReader.gt (Scenario.answering Scenario.rawA) |}.

End ClientScenario.

(** * Properties *)

(** ** Strings *)

(** Case analysis on the condition of the first conditional of the goal. *)
Ltac case_if :=
  match goal with
  | |- context [if ?c then _ else _] => destruct c eqn:?
  end.

Create Rewrite HintDb jsfacts.

Lemma jslen_nonneg (s : jsstring) : 0 <= jslen s.
Proof. unfold jslen. lia. Qed.

Lemma jslen_app (a b : jsstring) : jslen (a ++ b) = jslen a + jslen b.
Proof. unfold jslen. rewrite length_app. lia. Qed.

Lemma jslen_cons (c : N) (s : jsstring) : jslen (c :: s) = 1 + jslen s.
Proof. unfold jslen. simpl List.length. lia. Qed.

Lemma jslen_nil : jslen [] = 0.
Proof. reflexivity. Qed.

Lemma jslen_zero_nil (s : jsstring) : jslen s = 0 -> s = [].
Proof. destruct s; [reflexivity | rewrite jslen_cons; pose proof (jslen_nonneg s); lia]. Qed.

#[export] Hint Rewrite jslen_app jslen_cons jslen_nil : jsfacts.

Lemma truthy_string_nonempty (s : jsstring) :
  truthy (JString s) = true <-> s <> [].
Proof.
  destruct s as [|c s]; unfold truthy.
  - split; [discriminate | congruence].
  - rewrite jslen_cons. pose proof (jslen_nonneg s).
    destruct (Z.eqb_spec (1 + jslen s) 0); [lia|]. split; [discriminate | reflexivity].
Qed.

(** A prefix request: [substring(0, n)] keeps the first [n] code units,
    none when [n] is negative, all when [n] exceeds the length. *)
Lemma substring_prefix (s : jsstring) (n : Z) :
  substring s 0 n = firstn (Z.to_nat (clamp n (jslen s))) s.
Proof.
  unfold substring, clamp. pose proof (jslen_nonneg s) as Hs.
  replace (Z.min (Z.max 0 0) (jslen s)) with 0 by lia.
  set (b := Z.min (Z.max n 0) (jslen s)).
  assert (0 <= b) by (unfold b; lia).
  rewrite Z.min_l, Z.max_r by lia.
  simpl. now rewrite Z.sub_0_r.
Qed.

Lemma substring_prefix_nonpos (s : jsstring) (n : Z) :
  n <= 0 -> substring s 0 n = [].
Proof.
  intro Hn. rewrite substring_prefix. unfold clamp.
  pose proof (jslen_nonneg s).
  replace (Z.min (Z.max n 0) (jslen s)) with 0 by lia. reflexivity.
Qed.

Lemma substring_prefix_length (s : jsstring) (n : Z) :
  0 <= n <= jslen s -> jslen (substring s 0 n) = n.
Proof.
  intro Hn. rewrite substring_prefix. unfold clamp.
  replace (Z.min (Z.max n 0) (jslen s)) with n by lia.
  unfold jslen in *. rewrite length_firstn. lia.
Qed.

Lemma dots_length : jslen (lit "...") = 3.
Proof. reflexivity. Qed.

(** ** Truncation with an ellipsis *)

Lemma ellipsize_short (s : jsstring) (limit : Z) :
  jslen s <= limit -> ellipsize s limit = s.
Proof.
  intro H. unfold ellipsize. destruct (Z.gtb_spec (jslen s) limit); [lia | reflexivity].
Qed.

Lemma ellipsize_long (s : jsstring) (limit : Z) :
  limit < jslen s -> ellipsize s limit = substring s 0 (limit - 3) ++ lit "...".
Proof.
  intro H. unfold ellipsize. destruct (Z.gtb_spec (jslen s) limit); [reflexivity | lia].
Qed.

(** Below three the prefix request is negative and only the dots remain. *)
Lemma ellipsize_dots (s : jsstring) (limit : Z) :
  limit < jslen s -> limit <= 3 -> ellipsize s limit = lit "...".
Proof.
  intros Hlong Hsmall. rewrite ellipsize_long by assumption.
  rewrite substring_prefix_nonpos by lia. reflexivity.
Qed.

Lemma ellipsize_long_length (s : jsstring) (limit : Z) :
  limit < jslen s -> 3 <= limit -> jslen (ellipsize s limit) = limit.
Proof.
  intros Hlong Hbig. rewrite ellipsize_long by assumption.
  rewrite jslen_app, dots_length, substring_prefix_length; lia.
Qed.

Lemma ellipsize_bound (s : jsstring) (limit : Z) :
  3 <= limit -> jslen (ellipsize s limit) <= limit.
Proof.
  intro Hbig. destruct (Z_lt_le_dec limit (jslen s)) as [Hlong | Hshort].
  - rewrite ellipsize_long_length; lia.
  - rewrite ellipsize_short; lia.
Qed.

Lemma ellipsize_idempotent (s : jsstring) (limit : Z) :
  ellipsize (ellipsize s limit) limit = ellipsize s limit.
Proof.
  destruct (Z_lt_le_dec limit (jslen s)) as [Hlong | Hshort].
  - destruct (Z_lt_le_dec limit 3) as [Hsmall | Hbig].
    + rewrite (ellipsize_dots s) by lia.
      apply ellipsize_dots; [rewrite dots_length|]; lia.
    + apply ellipsize_short. rewrite ellipsize_long_length; lia.
  - now rewrite !ellipsize_short by (rewrite ?ellipsize_short; lia).
Qed.

Lemma ellipsize_nonempty (s : jsstring) (limit : Z) :
  s <> [] -> ellipsize s limit <> [].
Proof.
  intros Hs. unfold ellipsize. destruct (jslen s >? limit); [|assumption].
  intro H. apply (f_equal jslen) in H. autorewrite with jsfacts in H.
  rewrite dots_length in H.
  pose proof (jslen_nonneg (substring s 0 (limit - 3))). lia.
Qed.

(** ** The tag accumulation loop *)

Lemma join_snoc (sep : jsstring) (pre : list jsstring) (t : jsstring) :
  join sep (pre ++ [t]) =
  match pre with
  | [] => t
  | _ :: _ => join sep pre ++ sep ++ t
  end.
Proof.
  induction pre as [|p pre IH]; [reflexivity|].
  destruct pre as [|q pre]; [reflexivity|].
  change (join sep ((p :: q :: pre) ++ [t])) with (p ++ sep ++ join sep ((q :: pre) ++ [t])).
  rewrite IH. change (join sep (p :: q :: pre)) with (p ++ sep ++ join sep (q :: pre)).
  now rewrite <- !app_assoc.
Qed.

(** Admitting one more tag costs its length, and two more for the
    separator unless it is the first. *)
Lemma joinedLength_snoc (pre : list jsstring) (t : jsstring) :
  joinedLength (pre ++ [t]) =
  joinedLength pre + (if Nat.eqb (List.length pre) 0 then 0 else 2) + jslen t.
Proof.
  unfold joinedLength. rewrite join_snoc. destruct pre as [|p pre].
  - simpl. lia.
  - autorewrite with jsfacts. simpl Nat.eqb. cbv iota.
    change (jslen comma_space) with 2. lia.
Qed.

Lemma firstn_snoc_nth {A : Type} (l : list A) (i : nat) (x : A) :
  nth_error l i = Some x -> firstn (S i) l = firstn i l ++ [x].
Proof.
  revert i. induction l as [|a l IH]; intros [|i] H; simpl in *; try discriminate.
  - now inversion H.
  - f_equal. now apply IH.
Qed.

Section Accumulation.

Variable tagsLength : Z.

(** The loop seen from any iteration: [pre] holds the tags admitted so
    far.  What it goes on to admit is a prefix of what is left; each
    admitted tag passed the test against the running length, and the tag
    after the prefix, when there is one, failed it. *)
Lemma accumulate_spec (rest pre : list jsstring) :
  exists k : nat,
    (k <= List.length rest)%nat /\
    accumulate tagsLength (List.length pre) (joinedLength pre) rest = firstn k rest /\
    (forall i tag, (i < k)%nat -> nth_error rest i = Some tag ->
       joinedLength (pre ++ firstn i rest)
       + (if Nat.eqb (List.length pre + i) 0 then 0 else 2) + jslen tag <= tagsLength) /\
    (forall tag, nth_error rest k = Some tag ->
       tagsLength < joinedLength (pre ++ firstn k rest)
       + (if Nat.eqb (List.length pre + k) 0 then 0 else 2) + jslen tag).
Proof.
  revert pre. induction rest as [|t rest IH]; intro pre.
  - exists O. split; [simpl; lia | split; [reflexivity | split]].
    + intros i tag Hi. lia.
    + intros tag H. discriminate.
  - simpl accumulate.
    destruct (Z.leb_spec
                (joinedLength pre + (if Nat.eqb (List.length pre) 0 then 0 else 2) + jslen t)
                tagsLength) as [Hfit | Hover].
    + destruct (IH (pre ++ [t])) as (k & Hk & Hacc & Hin & Hout).
      rewrite joinedLength_snoc in Hacc.
      replace (List.length (pre ++ [t])) with (S (List.length pre)) in *
        by (rewrite length_app; simpl; lia).
      exists (S k). split; [|split; [|split]].
      * simpl. lia.
      * simpl. now rewrite Hacc.
      * intros [|i] tag Hi Hnth; simpl in Hnth.
        -- inversion Hnth; subst tag. simpl firstn. rewrite app_nil_r, Nat.add_0_r. exact Hfit.
        -- simpl firstn. replace (pre ++ t :: firstn i rest) with ((pre ++ [t]) ++ firstn i rest)
             by (now rewrite <- app_assoc).
           replace (List.length pre + S i)%nat with (S (List.length pre) + i)%nat by lia.
           apply Hin; [lia | assumption].
      * intros tag Hnth. simpl in Hnth. simpl firstn.
        replace (pre ++ t :: firstn k rest) with ((pre ++ [t]) ++ firstn k rest)
          by (now rewrite <- app_assoc).
        replace (List.length pre + S k)%nat with (S (List.length pre) + k)%nat by lia.
        now apply Hout.
    + exists O. split; [simpl; lia | split; [reflexivity | split]].
      * intros i tag Hi. lia.
      * intros tag Hnth. simpl in Hnth. inversion Hnth; subst tag.
        simpl firstn. rewrite app_nil_r, Nat.add_0_r. lia.
Qed.

(** The rendered length never passes the budget. *)
Lemma accumulate_bound (rest pre : list jsstring) :
  joinedLength pre <= tagsLength ->
  joinedLength (pre ++ accumulate tagsLength (List.length pre) (joinedLength pre) rest)
  <= tagsLength.
Proof.
  revert pre. induction rest as [|t rest IH]; intros pre Hpre.
  - simpl. now rewrite app_nil_r.
  - simpl accumulate.
    destruct (Z.leb_spec
                (joinedLength pre + (if Nat.eqb (List.length pre) 0 then 0 else 2) + jslen t)
                tagsLength) as [Hfit | Hover].
    + specialize (IH (pre ++ [t])). rewrite joinedLength_snoc in IH.
      replace (List.length (pre ++ [t])) with (S (List.length pre)) in IH
        by (rewrite length_app; simpl; lia).
      rewrite <- app_assoc in IH. apply IH. exact Hfit.
    + now rewrite app_nil_r.
Qed.

Lemma finalTags_bound (normalized : list jsstring) :
  0 <= tagsLength -> joinedLength (finalTags tagsLength normalized) <= tagsLength.
Proof.
  intro H. exact (accumulate_bound normalized [] H).
Qed.

(** Running the loop on its own output admits every tag again. *)
Lemma accumulate_idempotent (rest : list jsstring) (i : nat) (current : Z) :
  accumulate tagsLength i current (accumulate tagsLength i current rest)
  = accumulate tagsLength i current rest.
Proof.
  revert i current. induction rest as [|t rest IH]; intros i current; [reflexivity|].
  simpl.
  destruct (current + (if Nat.eqb i 0 then 0 else 2) + jslen t <=? tagsLength) eqn:Hfit;
    [|reflexivity].
  simpl. rewrite Hfit. now rewrite IH.
Qed.

Lemma accumulate_incl (rest : list jsstring) (i : nat) (current : Z) (t : jsstring) :
  In t (accumulate tagsLength i current rest) -> In t rest.
Proof.
  revert i current. induction rest as [|u rest IH]; intros i current; simpl; [tauto|].
  destruct (current + (if Nat.eqb i 0 then 0 else 2) + jslen u <=? tagsLength);
    simpl; [|tauto].
  intros [H | H]; [now left | right; eapply IH; eassumption].
Qed.

End Accumulation.

(** ** Tag normalisation *)

Lemma is_ws_in_class (c : N) : is_ws c = true -> hash_or_ws c = true.
Proof. intro H. unfold hash_or_ws. rewrite H. apply orb_true_r. Qed.

Lemma replace_runs_collapsed (s : jsstring) :
  forall in_run, collapsed_from in_run (replace_runs in_run s) = true.
Proof.
  induction s as [|c s IH]; intro in_run; [reflexivity|].
  simpl. destruct (hash_or_ws c) eqn:Hc.
  - destruct in_run; [apply IH|].
    simpl. now rewrite IH.
  - simpl. rewrite Hc. apply IH.
Qed.

Lemma collapsed_fixed (s : jsstring) :
  forall in_run, collapsed_from in_run s = true -> replace_runs in_run s = s.
Proof.
  induction s as [|c s IH]; intros in_run H; [reflexivity|].
  simpl in *. destruct (hash_or_ws c).
  - apply andb_prop in H as [H Hrest]. apply andb_prop in H as [Hc Hrun].
    apply N.eqb_eq in Hc. destruct in_run; [discriminate|].
    subst c. f_equal. now apply IH.
  - f_equal. now apply IH.
Qed.

Lemma collapsed_weaken (s : jsstring) :
  collapsed_from true s = true -> collapsed_from false s = true.
Proof.
  destruct s as [|c s]; [reflexivity|]. simpl.
  destruct (hash_or_ws c); [|tauto].
  rewrite andb_false_r. discriminate.
Qed.

Lemma collapsed_prefix (x y : jsstring) :
  forall after, collapsed_from after (x ++ y) = true -> collapsed_from after x = true.
Proof.
  induction x as [|c x IH]; intros after H; [reflexivity|].
  simpl in *. destruct (hash_or_ws c).
  - apply andb_prop in H as [H Hrest]. rewrite H. simpl. now apply IH.
  - now apply IH.
Qed.

Lemma collapsed_dropWhile (s : jsstring) :
  forall after, collapsed_from after s = true ->
                collapsed_from false (dropWhile is_ws s) = true.
Proof.
  induction s as [|c s IH]; intros after H; [reflexivity|].
  simpl dropWhile. destruct (is_ws c) eqn:Hws.
  - simpl in H. rewrite (is_ws_in_class c Hws) in H.
    apply andb_prop in H as [_ H]. now apply IH with (after := true).
  - destruct after; [now apply collapsed_weaken | exact H].
Qed.

Lemma dropWhile_starts (s : jsstring) : starts_with_ws (dropWhile is_ws s) = false.
Proof.
  induction s as [|c s IH]; [reflexivity|].
  simpl. destruct (is_ws c) eqn:Hws; [exact IH | simpl; exact Hws].
Qed.

Lemma dropWhile_fixed (s : jsstring) :
  starts_with_ws s = false -> dropWhile is_ws s = s.
Proof.
  destruct s as [|c s]; [reflexivity|]. simpl. now intros ->.
Qed.

Lemma dropWhile_suffix (s : jsstring) : exists w, s = w ++ dropWhile is_ws s.
Proof.
  induction s as [|c s [w IH]]; [now exists []|].
  simpl. destruct (is_ws c).
  - exists (c :: w). simpl. now f_equal.
  - now exists [].
Qed.

Lemma trimEnd_prefix (s : jsstring) : exists w, s = trimEnd s ++ w.
Proof.
  unfold trimEnd. destruct (dropWhile_suffix (rev s)) as [w Hw].
  exists (rev w). rewrite <- rev_app_distr, <- Hw. now rewrite rev_involutive.
Qed.

Lemma trimEnd_ends (s : jsstring) : ends_with_ws (trimEnd s) = false.
Proof.
  unfold ends_with_ws, trimEnd. rewrite rev_involutive. apply dropWhile_starts.
Qed.

Lemma trimEnd_starts (s : jsstring) :
  starts_with_ws s = false -> starts_with_ws (trimEnd s) = false.
Proof.
  intro H. destruct (trimEnd_prefix s) as [w Hw].
  destruct (trimEnd s) as [|c r]; [reflexivity|].
  rewrite Hw in H. exact H.
Qed.

Lemma trimEnd_fixed (s : jsstring) : ends_with_ws s = false -> trimEnd s = s.
Proof.
  intro H. unfold trimEnd. rewrite dropWhile_fixed by exact H. apply rev_involutive.
Qed.

Lemma trim_starts (s : jsstring) : starts_with_ws (trim s) = false.
Proof. unfold trim, trimStart. apply trimEnd_starts, dropWhile_starts. Qed.

Lemma trim_ends (s : jsstring) : ends_with_ws (trim s) = false.
Proof. unfold trim. apply trimEnd_ends. Qed.

Lemma trim_fixed (s : jsstring) :
  starts_with_ws s = false -> ends_with_ws s = false -> trim s = s.
Proof.
  intros Hs He. unfold trim, trimStart. rewrite dropWhile_fixed by exact Hs.
  now apply trimEnd_fixed.
Qed.

Lemma trim_collapsed (s : jsstring) : collapsed s = true -> collapsed (trim s) = true.
Proof.
  unfold collapsed, trim, trimStart. intro H.
  apply collapsed_dropWhile in H.
  destruct (trimEnd_prefix (dropWhile is_ws s)) as [w Hw].
  rewrite Hw in H. now apply collapsed_prefix in H.
Qed.

(** What the [map] of the normalisation returns is in normal form. *)
Lemma normalizeTag_normalForm (t : jsstring) : normalForm (normalizeTag t).
Proof.
  unfold normalForm, normalizeTag. split; [|split].
  - apply trim_collapsed. apply replace_runs_collapsed.
  - apply trim_starts.
  - apply trim_ends.
Qed.

(** A tag in normal form is left as it is. *)
Lemma normalForm_fixed (t : jsstring) : normalForm t -> normalizeTag t = t.
Proof.
  intros (Hc & Hs & He). unfold normalizeTag, replace_hash_ws.
  rewrite collapsed_fixed by exact Hc. now apply trim_fixed.
Qed.

Lemma normalizeTag_idempotent (t : jsstring) :
  normalizeTag (normalizeTag t) = normalizeTag t.
Proof. apply normalForm_fixed, normalizeTag_normalForm. Qed.

Lemma normalizedTags_normalForm (tags : list JSValue) (t : jsstring) :
  In t (normalizedTags tags) -> normalForm t.
Proof.
  unfold normalizedTags. rewrite in_map_iff. intros (u & <- & _).
  apply normalizeTag_normalForm.
Qed.

(** The filter keeps a list of non-empty tags in normal form whole. *)
Lemma stringTags_fixed (l : list jsstring) :
  (forall t, In t l -> normalForm t /\ t <> []) ->
  stringTags (List.map JString l) = l.
Proof.
  induction l as [|t l IH]; intro H; [reflexivity|].
  simpl. destruct (H t (or_introl eq_refl)) as [(Hc & Hs & He) Hne].
  rewrite trim_fixed by assumption.
  destruct (Z.gtb_spec (jslen t) 0) as [_ | Hlen].
  - f_equal. apply IH. intros u Hu. apply H. now right.
  - exfalso. apply Hne. apply jslen_zero_nil. pose proof (jslen_nonneg t). lia.
Qed.

Lemma normalizedTags_fixed (l : list jsstring) :
  (forall t, In t l -> normalForm t /\ t <> []) ->
  normalizedTags (List.map JString l) = l.
Proof.
  intro H. unfold normalizedTags. rewrite stringTags_fixed by exact H.
  rewrite <- (map_id l) at 2. apply map_ext_in.
  intros t Ht. apply normalForm_fixed. now apply H.
Qed.

(** ** The brace span *)

Lemma lastIndexOf_lt (c : N) (s : jsstring) (j : nat) :
  lastIndexOf c s = Some j -> (j < List.length s)%nat.
Proof.
  revert j. induction s as [|d s IH]; intros j H; simpl in *; [discriminate|].
  destruct (lastIndexOf c s) as [j'|].
  - inversion H; subst j. specialize (IH j' eq_refl). lia.
  - destruct (d =? c)%N; inversion H. lia.
Qed.

Lemma indexOf_none_lastIndexOf (c : N) (s : jsstring) :
  indexOf c s = None <-> lastIndexOf c s = None.
Proof.
  induction s as [|d s IH]; simpl; [tauto|].
  destruct (d =? c)%N.
  - destruct (lastIndexOf c s); split; discriminate.
  - destruct (indexOf c s), (lastIndexOf c s); simpl; split; intro H;
      try discriminate; try reflexivity.
    + now apply IH in H.
    + now apply IH in H.
Qed.

(** The star backs off to the last closing brace. *)
Lemma star_close_spec (s : jsstring) :
  star_close s = option_map (fun j => firstn (S j) s) (lastIndexOf rbrace s).
Proof.
  induction s as [|c s IH]; [reflexivity|].
  simpl star_close. simpl lastIndexOf. rewrite IH.
  destruct (lastIndexOf rbrace s) as [j|]; simpl; [reflexivity|].
  now destruct (c =? rbrace)%N.
Qed.

(** The match in terms of the two searches. *)
Lemma brace_match_spec (text : jsstring) :
  brace_match text =
  match indexOf lbrace text, lastIndexOf rbrace text with
  | Some i, Some j =>
      if (i <? j)%nat then Some (firstn (j + 1 - i) (skipn i text)) else None
  | _, _ => None
  end.
Proof.
  induction text as [|c r IH]; [reflexivity|].
  simpl brace_match. simpl indexOf. simpl lastIndexOf.
  destruct (N.eqb_spec c lbrace) as [Hc | Hc].
  - rewrite star_close_spec. destruct (lastIndexOf rbrace r) as [j|]; unfold option_map.
    + change (0 <? S j)%nat with true. cbv iota.
      replace (S j + 1 - 0)%nat with (S (S j)) by lia. reflexivity.
    + subst c. change (lbrace =? rbrace)%N with false. cbv iota.
      rewrite IH. now destruct (indexOf lbrace r).
  - rewrite IH. destruct (indexOf lbrace r) as [i|]; simpl; [|reflexivity].
    destruct (lastIndexOf rbrace r) as [j|]; simpl.
    + replace (S i <? S j)%nat with (i <? j)%nat
        by (destruct (Nat.ltb_spec i j), (Nat.ltb_spec (S i) (S j)); try reflexivity; lia).
      reflexivity.
    + now destruct (c =? rbrace)%N.
Qed.

Lemma substring_span (s : jsstring) (i j : nat) :
  (i < j)%nat -> (j < List.length s)%nat ->
  substring s (Z.of_nat i) (Z.of_nat j + 1) = firstn (j + 1 - i) (skipn i s).
Proof.
  intros Hij Hj. unfold substring, clamp, jslen.
  replace (Z.min (Z.max (Z.of_nat i) 0) (Z.of_nat (List.length s))) with (Z.of_nat i) by lia.
  replace (Z.min (Z.max (Z.of_nat j + 1) 0) (Z.of_nat (List.length s)))
    with (Z.of_nat j + 1) by lia.
  rewrite Z.min_l, Z.max_r by lia. rewrite Nat2Z.id.
  f_equal. lia.
Qed.

Lemma brace_match_substring (text : jsstring) (i j : nat) :
  indexOf lbrace text = Some i -> lastIndexOf rbrace text = Some j -> (i < j)%nat ->
  brace_match text = Some (substring text (Z.of_nat i) (Z.of_nat j + 1)).
Proof.
  intros Hi Hj Hij. rewrite brace_match_spec, Hi, Hj.
  destruct (Nat.ltb_spec i j); [|lia].
  rewrite substring_span; [reflexivity | assumption | now apply lastIndexOf_lt with (c := rbrace)].
Qed.

Lemma brace_match_some (text span : jsstring) :
  brace_match text = Some span ->
  exists i j, indexOf lbrace text = Some i /\ lastIndexOf rbrace text = Some j /\
              (i < j)%nat /\ span = substring text (Z.of_nat i) (Z.of_nat j + 1).
Proof.
  intro H. rewrite brace_match_spec in H.
  destruct (indexOf lbrace text) as [i|] eqn:Hi; [|discriminate].
  destruct (lastIndexOf rbrace text) as [j|] eqn:Hj; [|discriminate].
  destruct (Nat.ltb_spec i j) as [Hij|]; [|discriminate].
  exists i, j. repeat split; try assumption.
  rewrite substring_span; [now inversion H | assumption | now apply lastIndexOf_lt with (c := rbrace)].
Qed.

Lemma brace_match_none (text : jsstring) :
  indexOf lbrace text = None \/ indexOf rbrace text = None -> brace_match text = None.
Proof.
  intros [H | H]; rewrite brace_match_spec.
  - now rewrite H.
  - apply indexOf_none_lastIndexOf in H. rewrite H. now destruct (indexOf lbrace text).
Qed.

(** ** The pipeline *)

Lemma truthy_false_iff (v : JSValue) : truthy v = false <-> Falsy v.
Proof.
  split.
  - destruct v as [| |b|x|s|elems|props]; simpl; intro H; try discriminate.
    + constructor.
    + constructor.
    + subst b. constructor.
    + apply negb_false_iff, orb_true_iff in H as [H | H];
        [now apply Falsy_zero | now apply Falsy_nan].
    + apply negb_false_iff, Z.eqb_eq, jslen_zero_nil in H. subst s. constructor.
  - intros [ | | |x H|x H| ]; simpl; try reflexivity.
    + now rewrite H.
    + rewrite H. now rewrite orb_true_r.
Qed.


(** ** Binary64 on small integers *)

(** An integer of magnitude at most 2^53 is a binary64 value. *)
Lemma binary64_exact (n : Z) :
  Z.abs n <= 2 ^ 53 -> binary64 n = Finite n.
Proof.
  change (2 ^ 53) with 9007199254740992. intro H. unfold binary64, round53.
  destruct (Z.leb_spec (Z.abs n) 9007199254740992) as [_|]; [|lia].
  destruct (Z.ltb_spec (Z.log2 (Z.abs n)) 1024) as [|Hlog]; [reflexivity|].
  pose proof (Z.log2_le_mono (Z.abs n) 9007199254740992 H) as Hmono.
  change (Z.log2 9007199254740992) with 53 in Hmono. lia.
Qed.

(** The rounding written out on integers is the rounding of the
    machine's binary64 numbers: at integers on both sides of 2^53, on
    ties towards either neighbour and at a carry into the next power of
    two, the number the machine makes of the integer is the rounded
    integer, and the machine's sum of two integers is their rounded
    sum. *)
Lemma round53_is_machine_rounding :
  (forall n : Z,
     In n [ 0; 5; 9007199254740991; 9007199254740992; 9007199254740993;
            9007199254740994; 9007199254740995; 18014398509481985; 18014398509481987;
            1152921504606847104; 1152921504606847105; 1152921504606847360;
            2305843009213693951; 4611686018427387903; 9223372036854775807 ] ->
     integerValue (PrimFloat.of_uint63 (Uint63.of_Z n)) = Some (round53 n)) /\
  (forall a b : Z,
     In (a, b) [ (9007199254740991, 2); (9007199254740992, 1); (9007199254740992, 3);
                 (4611686018427387904, 513); (4611686018427387904, 4611686018427387904);
                 (120, 600) ] ->
     integerValue (PrimFloat.of_uint63 (Uint63.of_Z a) + PrimFloat.of_uint63 (Uint63.of_Z b))
     = Some (round53 (a + b))).
Proof.
  split.
  - intros n Hn. simpl in Hn.
    repeat (destruct Hn as [<- | Hn]; [now vm_compute|]). contradiction Hn.
  - intros a b Hab. simpl in Hab.
    repeat (destruct Hab as [Hab | Hab]; [injection Hab as <- <-; now vm_compute|]).
    contradiction Hab.
Qed.

(** Up to 2^53 in magnitude a number is written with the decimal digits
    of its integer value. *)
Lemma numberText_decimal (n : Z) :
  Z.abs n <= 2 ^ 53 -> numberText n = of_Z n.
Proof.
  intro H. unfold numberText. rewrite binary64_exact by exact H. unfold toText.
  change (2 ^ 53) with 9007199254740992 in H.
  now destruct (Z.leb_spec (Z.abs n) 9007199254740992); [|lia].
Qed.


Section PipelineFacts.

Variable JSON_parse : jsstring -> option JSValue.
Variable js_gt : JSValue -> Z -> bool.

Lemma fitField_not_Error (v : JSValue) (limit : Z) (message : jsstring) :
  fitField js_gt v limit <> Throw (Error message).
Proof.
  destruct v as [| |b|x|s|elems|props]; simpl; try discriminate.
  - destruct (Z.of_nat (List.length elems) >? limit); discriminate.
  - destruct (get_prop (lit "length") props); try discriminate; case_if; discriminate.
Qed.

Lemma fitField_string (v : JSValue) (limit : Z) (s : jsstring) :
  fitField js_gt v limit = Normal (JString s) ->
  exists s0, v = JString s0 /\ s = ellipsize s0 limit.
Proof.
  destruct v as [| |b|x|s0|elems|props]; simpl; try discriminate.
  - intro H. inversion H. now exists s0.
  - destruct (Z.of_nat (List.length elems) >? limit); discriminate.
  - destruct (get_prop (lit "length") props); try discriminate; case_if; discriminate.
Qed.

(** Fitting a fitted field again changes nothing, whatever the limit. *)
Lemma fitField_idempotent (v v' : JSValue) (limit : Z) :
  fitField js_gt v limit = Normal v' -> fitField js_gt v' limit = Normal v'.
Proof.
  destruct v as [| |b|x|s|elems|props]; simpl; try discriminate.
  - intro H. inversion H. reflexivity.
  - intro H. inversion H. reflexivity.
  - intro H. inversion H. simpl. now rewrite ellipsize_idempotent.
  - destruct (Z.of_nat (List.length elems) >? limit) eqn:Hlen; [discriminate|].
    intro H. inversion H. simpl. now rewrite Hlen.
  - destruct (get_prop (lit "length") props) eqn:Hprop;
      [ intro H; inversion H; simpl; now rewrite Hprop | .. ];
      (case_if; [discriminate|]; intro H; inversion H; simpl;
       rewrite Hprop; match goal with Hgt : js_gt _ _ = false |- _ => now rewrite Hgt end).
Qed.

Lemma fitField_truthy (v v' : JSValue) (limit : Z) :
  fitField js_gt v limit = Normal v' -> truthy v = true -> truthy v' = true.
Proof.
  destruct v as [| |b|x|s|elems|props]; simpl; try discriminate.
  - intros H; inversion H; tauto.
  - intros H; inversion H; tauto.
  - intros H Hs. inversion H. apply truthy_string_nonempty.
    apply ellipsize_nonempty. now apply truthy_string_nonempty.
  - destruct (Z.of_nat (List.length elems) >? limit); [discriminate|].
    intros H; inversion H; tauto.
  - destruct (get_prop (lit "length") props);
      [ intros H; inversion H; tauto | .. ];
      (case_if; [discriminate|]; intros H; inversion H; tauto).
Qed.

Lemma fitFields_inv (t d : JSValue) (elems : list JSValue) (Lt Ld Lg : Z)
    (r : AnalysisResult) :
  fitFields js_gt t d elems Lt Ld Lg = Normal r ->
  fitField js_gt t Lt = Normal (title r) /\
  fitField js_gt d Ld = Normal (description r) /\
  tags r = finalTags Lg (normalizedTags elems).
Proof.
  unfold fitFields, bind.
  destruct (fitField js_gt t Lt) as [t'|]; [|discriminate].
  destruct (fitField js_gt d Ld) as [d'|]; [|discriminate].
  intro H. inversion H. simpl. auto.
Qed.

Lemma shapeCandidate_inv (candidate : JSValue) (Lt Ld Lg : Z) (r : AnalysisResult) :
  shapeCandidate js_gt candidate Lt Ld Lg = Normal r ->
  exists t d elems,
    destructure candidate = Normal (t, d, JArray elems) /\
    invalidShape t d (JArray elems) = false /\
    fitFields js_gt t d elems Lt Ld Lg = Normal r.
Proof.
  unfold shapeCandidate, bind.
  destruct (destructure candidate) as [[[t d] g]|]; [|discriminate].
  destruct (invalidShape t d g) eqn:Hshape; [discriminate|].
  destruct g; try discriminate.
  intro H. now exists t, d, elems.
Qed.

Lemma shapeCompletion_inv (answer : Completion jsstring) (Lt Ld Lg : Z)
    (r : AnalysisResult) :
  shapeCompletion JSON_parse js_gt answer Lt Ld Lg = Normal r ->
  exists text span candidate,
    answer = Normal text /\ brace_match text = Some span /\
    JSON_parse span = Some candidate /\
    shapeCandidate js_gt candidate Lt Ld Lg = Normal r.
Proof.
  unfold shapeCompletion, bind, extractJson, parseSpan.
  destruct answer as [text|]; [|discriminate].
  destruct (brace_match text) as [span|] eqn:Hspan; [|discriminate].
  destruct (JSON_parse span) as [candidate|] eqn:Hparse; [|discriminate].
  intro H. now exists text, span, candidate.
Qed.

(** Each of the four failures makes the inner block throw. *)
Lemma failure_throws (answer : Completion jsstring) (Lt Ld Lg : Z) :
  PipelineFailure JSON_parse answer ->
  exists e, shapeCompletion JSON_parse js_gt answer Lt Ld Lg = Throw e.
Proof.
  unfold shapeCompletion, bind, extractJson, parseSpan.
  intros [e | text Hspan | text span Hspan Hparse
          | text span candidate Hspan Hparse (t & d & g & Hd & Hshape)].
  - now exists e.
  - rewrite Hspan. eauto.
  - rewrite Hspan, Hparse. eauto.
  - rewrite Hspan, Hparse. unfold shapeCandidate, bind. rewrite Hd, Hshape. eauto.
Qed.

(** With an image the handler calls the model once and answers with
    status 200: the fitted result, or the fallback when the block threw. *)
Lemma analyzeImage_run (body : RequestBody) (model : GenRequest -> Completion jsstring) :
  truthy (image body) = true ->
  run model (analyzeImage JSON_parse js_gt body) =
  (ok match shapeCompletion JSON_parse js_gt (model (buildRequest body))
              (titleLength body) (descriptionLength body) (tagsLength body) with
      | Normal r => r
      | Throw _ => fallbackResult (titleLength body) (descriptionLength body)
      end,
   [buildRequest body]).
Proof.
  intro Himage. unfold analyzeImage. rewrite Himage. simpl.
  now destruct (shapeCompletion JSON_parse js_gt (model (buildRequest body))
                  (titleLength body) (descriptionLength body) (tagsLength body)).
Qed.

(** For limits of three or more a fitted string field is within its
    limit. *)
Lemma fitField_bound (v : JSValue) (limit : Z) (s : jsstring) :
  3 <= limit -> fitField js_gt v limit = Normal (JString s) -> jslen s <= limit.
Proof.
  intros Hlimit H. apply fitField_string in H as (s0 & _ & ->).
  now apply ellipsize_bound.
Qed.

(** Fitting a fitted result again returns it, provided none of its tags
    is the empty string. *)
Lemma refit_identity (t d : JSValue) (elems : list JSValue) (Lt Ld Lg : Z)
    (r : AnalysisResult) :
  fitFields js_gt t d elems Lt Ld Lg = Normal r ->
  (forall tag, In tag (tags r) -> tag <> []) ->
  Scenario.refit js_gt r Lt Ld Lg = Normal r.
Proof.
  intros Hfit Hne. apply fitFields_inv in Hfit as (Ht & Hd & Htags).
  unfold Scenario.refit, fitFields, bind.
  rewrite (fitField_idempotent _ _ _ Ht), (fitField_idempotent _ _ _ Hd).
  rewrite normalizedTags_fixed.
  - rewrite Htags. unfold finalTags. rewrite accumulate_idempotent.
    destruct r as [rt rd rg]. simpl in *. now rewrite Htags.
  - intros tag Hin. split; [|now apply Hne].
    rewrite Htags in Hin. apply accumulate_incl in Hin.
    now apply normalizedTags_normalForm in Hin.
Qed.

(** A fitted result passes the shape check again. *)
Lemma fitted_shape_valid (t d : JSValue) (elems : list JSValue) (Lt Ld Lg : Z)
    (r : AnalysisResult) :
  truthy t = true -> truthy d = true ->
  fitFields js_gt t d elems Lt Ld Lg = Normal r ->
  invalidShape (title r) (description r) (JArray (List.map JString (tags r))) = false.
Proof.
  intros Ht Hd Hfit. apply fitFields_inv in Hfit as (Hft & Hfd & _).
  unfold invalidShape.
  rewrite (fitField_truthy _ _ _ Hft Ht), (fitField_truthy _ _ _ Hfd Hd). reflexivity.
Qed.

(** With a string title and description, limits of three or more for
    them and a tags limit that is not negative, the Field Fitter
    returns, and what it returns is within the three limits. *)
Lemma fitFields_within_limits (title0 description0 : jsstring) (elems : list JSValue)
    (Lt Ld Lg : Z) :
  3 <= Lt -> 3 <= Ld -> 0 <= Lg ->
  exists (title1 description1 : jsstring) (tags1 : list jsstring),
    fitFields js_gt (JString title0) (JString description0) elems Lt Ld Lg
    = Normal {| title := JString title1; description := JString description1;
                tags := tags1 |} /\
    jslen title1 <= Lt /\ jslen description1 <= Ld /\ joinedLength tags1 <= Lg.
Proof.
  intros Ht Hd Hg.
  exists (ellipsize title0 Lt), (ellipsize description0 Ld),
         (finalTags Lg (normalizedTags elems)).
  split; [reflexivity|].
  split; [now apply ellipsize_bound|]. split; [now apply ellipsize_bound|].
  now apply finalTags_bound.
Qed.

(** ** The claims *)

(** C9.  A request body without an [image] field is answered at once
    with status 400 and the error object; the model is not called, and
    the answer is not an AnalysisResult, fallback or other. *)
Theorem missing_image_rejected (body : RequestBody)
    (model : GenRequest -> Completion jsstring) :
  image body = JUndefined ->
  analyzeImage JSON_parse js_gt body = Ret badRequest /\
  run model (analyzeImage JSON_parse js_gt body) = (badRequest, []) /\
  status badRequest = 400 /\
  payload badRequest = JObject [ (lit "error", JString (lit "No image provided")) ] /\
  (forall r : AnalysisResult, badRequest <> ok r).
Proof.
  intro Himage. unfold analyzeImage. rewrite Himage. simpl.
  repeat split. intros r H. discriminate.
Qed.


(** C7.  The extractor hands [JSON.parse] exactly the substring from
    the first opening brace to the last closing brace, whatever lies
    between them, and returns what the parser made of it (the parse
    error when the parser threw); it throws the extraction error when
    the text has no opening brace or no closing brace (as it does when
    every closing brace stands before the first opening one, where there
    is no such substring). *)
Theorem extractor_greedy_span (text : jsstring) :
  (forall i j : nat,
     indexOf lbrace text = Some i -> lastIndexOf rbrace text = Some j -> (i < j)%nat ->
     extractJson JSON_parse text
     = match JSON_parse (substring text (Z.of_nat i) (Z.of_nat j + 1)) with
       | Some candidate => Normal candidate
       | None => Throw (Error (lit "Failed to parse Gemini API response"))
       end) /\
  (forall span : jsstring,
     brace_match text = Some span ->
     exists i j : nat,
       indexOf lbrace text = Some i /\ lastIndexOf rbrace text = Some j /\ (i < j)%nat /\
       span = substring text (Z.of_nat i) (Z.of_nat j + 1)) /\
  (indexOf lbrace text = None \/ indexOf rbrace text = None ->
   extractJson JSON_parse text
   = Throw (Error (lit "Invalid response format from Gemini API"))) /\
  (forall i j : nat,
     indexOf lbrace text = Some i -> lastIndexOf rbrace text = Some j -> (j < i)%nat ->
     extractJson JSON_parse text
     = Throw (Error (lit "Invalid response format from Gemini API"))).
Proof.
  split; [|split; [|split]].
  - intros i j Hi Hj Hij. unfold extractJson, parseSpan.
    now rewrite (brace_match_substring text i j Hi Hj Hij).
  - apply brace_match_some.
  - intro H. unfold extractJson. now rewrite (brace_match_none text H).
  - intros i j Hi Hj Hji. unfold extractJson. rewrite brace_match_spec, Hi, Hj.
    destruct (Nat.ltb_spec i j); [lia | reflexivity].
Qed.

(** C8.  With an image in the request, when the call to the model, the
    extraction, the parse or the shape check fails, the handler answers
    with status 200 and an object of the three fields: as title the
    template [Image Analysis (Processing Complete)], or
    [Image Analysis (Analyzed)] for a title limit of 30 or less, as
    description the fixed sentence, both cut to their limit with the
    ellipsis as the Field Fitter cuts a string, and the three fixed
    tags.  A text without an opening brace is such a failure. *)
Theorem failures_fall_back (body : RequestBody)
    (model : GenRequest -> Completion jsstring) :
  let cut := fun (s : jsstring) (limit : Z) =>
    if jslen s >? limit then substring s 0 (limit - 3) ++ lit "..." else s in
  let titleTemplate :=
    lit "Image Analysis ("
      ++ (if titleLength body >? 30 then lit "Processing Complete" else lit "Analyzed")
      ++ lit ")" in
  let descriptionTemplate :=
    lit "The image has been processed and analyzed with detailed consideration of visual elements, composition, colors, and context." in
  let fallback :=
    {| status := 200;
       payload :=
         JObject
           [ (lit "title", JString (cut titleTemplate (titleLength body)));
             (lit "description", JString (cut descriptionTemplate (descriptionLength body)));
             (lit "tags",
              JArray [ JString (lit "Image Analysis"); JString (lit "Visual Processing");
                       JString (lit "AI Detection") ]) ] |} in
  let answer := run model (analyzeImage JSON_parse js_gt body) in
  truthy (image body) = true ->
  (PipelineFailure JSON_parse (model (buildRequest body)) ->
   answer = (fallback, [buildRequest body])) /\
  (forall e : Exn,
     model (buildRequest body) = Throw e -> answer = (fallback, [buildRequest body])) /\
  (forall text : jsstring,
     model (buildRequest body) = Normal text ->
     indexOf lbrace text = None \/ indexOf rbrace text = None ->
     answer = (fallback, [buildRequest body])) /\
  (forall text span : jsstring,
     model (buildRequest body) = Normal text ->
     brace_match text = Some span -> JSON_parse span = None ->
     answer = (fallback, [buildRequest body])) /\
  (forall (text span : jsstring) (candidate t d g : JSValue),
     model (buildRequest body) = Normal text ->
     brace_match text = Some span -> JSON_parse span = Some candidate ->
     destructure candidate = Normal (t, d, g) ->
     truthy t = false \/ truthy d = false \/ isArray g = false ->
     answer = (fallback, [buildRequest body])) /\
  (forall text : jsstring,
     indexOf lbrace text = None -> PipelineFailure JSON_parse (Normal text)) /\
  fitField js_gt (JString titleTemplate) (titleLength body)
  = Normal (JString (cut titleTemplate (titleLength body))) /\
  fitField js_gt (JString descriptionTemplate) (descriptionLength body)
  = Normal (JString (cut descriptionTemplate (descriptionLength body))).
Proof.
  intros cut titleTemplate descriptionTemplate fallback answer Himage.
  assert (Hfallback : PipelineFailure JSON_parse (model (buildRequest body)) ->
                      answer = (fallback, [buildRequest body])).
  { intro Hfail. subst answer. rewrite analyzeImage_run by exact Himage.
    destruct (failure_throws _ (titleLength body) (descriptionLength body)
                (tagsLength body) Hfail) as [e He].
    now rewrite He. }
  split; [exact Hfallback|].
  split; [intros e He; apply Hfallback; rewrite He; apply CallFailed|].
  split.
  { intros text Hanswer Hnone. apply Hfallback. rewrite Hanswer.
    apply ExtractionFailed. now apply brace_match_none. }
  split.
  { intros text span Hanswer Hspan Hparse. apply Hfallback. rewrite Hanswer.
    now apply ParseFailed with (span := span). }
  split.
  { intros text span candidate t d g Hanswer Hspan Hparse Hd Hshape.
    apply Hfallback. rewrite Hanswer.
    apply ShapeFailed with (span := span) (candidate := candidate); try assumption.
    exists t, d, g. split; [exact Hd|]. unfold invalidShape.
    destruct Hshape as [H | [H | H]]; rewrite H; simpl; rewrite ?orb_true_r; reflexivity. }
  split; [|split; reflexivity].
  intros text Hnone. apply ExtractionFailed. apply brace_match_none. now left.
Qed.

(** C2.  The tags of a fitted result are a prefix of the normalised
    tags, in their order: each tag of the prefix passed the test
    [runningLength + separator + tag.length <= tagsLength], with the
    running length that of the tags before it joined and the separator 0
    for the first tag and 2 afterwards; the tag that follows the prefix
    failed it, and nothing after it is admitted.  On Scenario A with the
    limits (20, 40, 20) the tags are cat, mat and indoor. *)
Theorem tags_greedy_prefix :
  (forall (t d : JSValue) (elems : list JSValue) (Lt Ld Lg : Z) (r : AnalysisResult),
     fitFields js_gt t d elems Lt Ld Lg = Normal r ->
     exists k : nat,
       (k <= List.length (normalizedTags elems))%nat /\
       tags r = firstn k (normalizedTags elems) /\
       (forall i tag, (i < k)%nat -> nth_error (normalizedTags elems) i = Some tag ->
          joinedLength (firstn i (normalizedTags elems))
          + (if Nat.eqb i 0 then 0 else 2) + jslen tag <= Lg) /\
       (forall tag, nth_error (normalizedTags elems) k = Some tag ->
          Lg < joinedLength (firstn k (normalizedTags elems))
               + (if Nat.eqb k 0 then 0 else 2) + jslen tag)) /\
  (forall model : GenRequest -> Completion jsstring,
     JSON_parse Scenario.spanA = Some Scenario.candidateA ->
     model (buildRequest (Scenario.request 20 40 20)) = Normal Scenario.rawA ->
     run model (analyzeImage JSON_parse js_gt (Scenario.request 20 40 20))
     = (ok Scenario.resultA, [buildRequest (Scenario.request 20 40 20)]) /\
     tags Scenario.resultA = [ lit "cat"; lit "mat"; lit "indoor" ]).
Proof.
  split.
  - intros t d elems Lt Ld Lg r Hfit.
    apply fitFields_inv in Hfit as (_ & _ & Htags).
    destruct (accumulate_spec Lg (normalizedTags elems) []) as (k & Hk & Hacc & Hin & Hout).
    exists k. split; [exact Hk|]. split; [rewrite Htags; exact Hacc|]. split.
    + intros i tag Hi Hnth. exact (Hin i tag Hi Hnth).
    + intros tag Hnth. exact (Hout tag Hnth).
  - intros model Hparse Hanswer. split; [|reflexivity].
    rewrite analyzeImage_run by reflexivity. rewrite Hanswer.
    unfold shapeCompletion, bind, extractJson, parseSpan.
    replace (brace_match Scenario.rawA) with (Some Scenario.spanA) by (vm_compute; reflexivity).
    rewrite Hparse. reflexivity.
Qed.

Lemma invalidShape_false_iff (t d g : JSValue) :
  invalidShape t d g = false <->
  truthy t = true /\ truthy d = true /\ isArray g = true.
Proof.
  unfold invalidShape. rewrite !orb_false_iff, !negb_false_iff. tauto.
Qed.

Lemma fitFields_not_Error (t d : JSValue) (elems : list JSValue) (Lt Ld Lg : Z)
    (message : jsstring) :
  fitFields js_gt t d elems Lt Ld Lg <> Throw (Error message).
Proof.
  unfold fitFields, bind.
  destruct (fitField js_gt t Lt) eqn:Ht.
  - destruct (fitField js_gt d Ld) eqn:Hd; [discriminate|].
    intro H. inversion H; subst. exact (fitField_not_Error _ _ _ Hd).
  - intro H. inversion H; subst. exact (fitField_not_Error _ _ _ Ht).
Qed.

(** C5, amended.  The shape check rejects a candidate object exactly
    when its title is falsy (absent, null, false, zero, NaN or the empty
    string), or its description is falsy, or its tags are not an array.
    The types of title and description are not checked: a candidate that
    passes has an array of tags and a truthy title and description, each
    non-empty when it is a string; and a candidate with a non-empty
    string title, a non-empty string description and an array of tags
    passes. *)
Theorem validation_is_truthiness (props : list (jsstring * JSValue)) (Lt Ld Lg : Z) :
  let t := get_prop (lit "title") props in
  let d := get_prop (lit "description") props in
  let g := get_prop (lit "tags") props in
  (shapeCandidate js_gt (JObject props) Lt Ld Lg
   = Throw (Error (lit "Invalid response structure from Gemini API"))
   <-> Falsy t \/ Falsy d \/ isArray g = false) /\
  (invalidShape t d g = false ->
   (forall s, t = JString s -> s <> []) /\
   (forall s, d = JString s -> s <> []) /\
   exists elems, g = JArray elems) /\
  (forall s1 s2 elems,
     t = JString s1 -> s1 <> [] -> d = JString s2 -> s2 <> [] -> g = JArray elems ->
     invalidShape t d g = false).
Proof.
  intros t d g. split; [|split].
  - unfold shapeCandidate, bind, destructure. fold t d g.
    destruct (invalidShape t d g) eqn:Hshape.
    + split; [intros _ | reflexivity].
      unfold invalidShape in Hshape.
      rewrite !orb_true_iff, !negb_true_iff, !truthy_false_iff in Hshape. tauto.
    + apply invalidShape_false_iff in Hshape as (Ht & Hd & Hg).
      split.
      * intro H. exfalso. destruct g; try discriminate.
        exact (fitFields_not_Error _ _ _ _ _ _ _ H).
      * rewrite <- !truthy_false_iff. intros [H | [H | H]]; congruence.
  - intro Hshape. apply invalidShape_false_iff in Hshape as (Ht & Hd & Hg).
    split; [|split].
    + intros s Hs. rewrite Hs in Ht. now apply truthy_string_nonempty.
    + intros s Hs. rewrite Hs in Hd. now apply truthy_string_nonempty.
    + destruct g; try discriminate. now exists elems.
  - intros s1 s2 elems Ht Hs1 Hd Hs2 Hg. apply invalidShape_false_iff.
    rewrite Ht, Hd, Hg. repeat split; now apply truthy_string_nonempty.
Qed.

Lemma fallbackTags_normalForm (t : jsstring) :
  In t fallbackTags -> normalForm t /\ t <> [].
Proof.
  intros [<- | [<- | [<- | []]]]; (split; [now vm_compute | discriminate]).
Qed.

(** C6, amended.  With an image and limits of at least three for title
    and description and at least one for the tags, the handler answers
    with status 200 and a result whose title and description, when
    strings, are within their limits, and whose tags are in normal form.
    On the success path the joined tags are within [tagsLength].  On the
    fallback path title and description are strings, and the tags are
    the three fixed labels, not fitted: they are non-empty, their joined
    length is 47, and it is within [tagsLength] exactly when
    [tagsLength] is at least 47. *)
Theorem results_within_budget (body : RequestBody)
    (model : GenRequest -> Completion jsstring) :
  truthy (image body) = true ->
  3 <= titleLength body -> 3 <= descriptionLength body -> 1 <= tagsLength body ->
  exists r : AnalysisResult,
    run model (analyzeImage JSON_parse js_gt body) = (ok r, [buildRequest body]) /\
    (forall s, title r = JString s -> jslen s <= titleLength body) /\
    (forall s, description r = JString s -> jslen s <= descriptionLength body) /\
    (forall tag, In tag (tags r) -> normalForm tag) /\
    ((shapeCompletion JSON_parse js_gt (model (buildRequest body))
        (titleLength body) (descriptionLength body) (tagsLength body) = Normal r /\
      joinedLength (tags r) <= tagsLength body)
     \/
     ((exists e, shapeCompletion JSON_parse js_gt (model (buildRequest body))
                   (titleLength body) (descriptionLength body) (tagsLength body) = Throw e) /\
      is_string (title r) = true /\ is_string (description r) = true /\
      tags r = fallbackTags /\
      (forall tag, In tag (tags r) -> tag <> []) /\
      joinedLength (tags r) = 47 /\
      (joinedLength (tags r) <= tagsLength body <-> 47 <= tagsLength body))).
Proof.
  intros Himage Ht Hd Hg. rewrite analyzeImage_run by exact Himage.
  destruct (shapeCompletion JSON_parse js_gt (model (buildRequest body))
              (titleLength body) (descriptionLength body) (tagsLength body))
    as [r | e] eqn:Hshape.
  - exists r. split; [reflexivity|].
    apply shapeCompletion_inv in Hshape as (text & span & candidate & _ & _ & _ & Hcand).
    apply shapeCandidate_inv in Hcand as (t & d & elems & _ & _ & Hfit).
    apply fitFields_inv in Hfit as (Hft & Hfd & Htags).
    split; [|split; [|split; [|left; split]]].
    + intros s Hs. rewrite Hs in Hft. exact (fitField_bound _ _ _ Ht Hft).
    + intros s Hs. rewrite Hs in Hfd. exact (fitField_bound _ _ _ Hd Hfd).
    + intros tag Hin. rewrite Htags in Hin. apply accumulate_incl in Hin.
      exact (normalizedTags_normalForm _ _ Hin).
    + reflexivity.
    + rewrite Htags. apply finalTags_bound. lia.
  - exists (fallbackResult (titleLength body) (descriptionLength body)).
    split; [reflexivity|]. simpl.
    split; [|split; [|split; [|right; repeat split]]].
    + intros s Hs. inversion Hs. now apply ellipsize_bound.
    + intros s Hs. inversion Hs. now apply ellipsize_bound.
    + intros tag Hin. now apply fallbackTags_normalForm.
    + now exists e.
    + intros tag Hin. now apply fallbackTags_normalForm.
    + change (joinedLength fallbackTags) with 47. tauto.
    + change (joinedLength fallbackTags) with 47. tauto.
Qed.

End PipelineFacts.

(** ** The claims at concrete inputs *)

Import Scenario.

(** C1, where the code departs from it.  A four-character title under a
    title limit of 1 leaves the Field Fitter as the three dots: the
    prefix request [substring(0, -2)] is empty and the ellipsis alone
    is longer than the limit. *)
Theorem short_limit_title_overflows :
  shapeCompletion JsonReader.parse JsonReader.gt (Normal rawFourLetterTitle) 1 40 20
  = Normal {| title := str "..."; description := str "d"; tags := [] |} /\
  ellipsize (lit "abcd") 1 = lit "..." /\
  ~ (jslen (ellipsize (lit "abcd") 1) <= 1).
Proof.
  split; [now vm_compute|]. split; [reflexivity|].
  vm_compute. intro H. now apply H.
Qed.

(** C4, where the code departs from it.  The filter runs before the
    replacement, so a tag made of a hash sign passes it and is then
    normalised to the empty string, which is admitted into the result. *)
Theorem hash_tag_survives_as_empty :
  stringTags [str "#"; str "a"] = [lit "#"; lit "a"] /\
  normalizeTag (lit "#") = [] /\
  exists r : AnalysisResult,
    shapeCompletion JsonReader.parse JsonReader.gt (Normal rawHashTags) 20 40 20 = Normal r /\
    In [] (tags r).
Proof.
  split; [now vm_compute|]. split; [now vm_compute|].
  eexists. split; [vm_compute; reflexivity|]. simpl. now left.
Qed.

(** C3, where the code departs from it.  Fitting the result of the
    candidate with the tags [#] and [a] a second time, under the same
    limits, drops the empty tag the first fitting let in: the two
    results differ. *)
Theorem refit_drops_emptied_tag :
  exists r1 r2 : AnalysisResult,
    shapeCompletion JsonReader.parse JsonReader.gt (Normal rawHashTags) 20 40 20 = Normal r1 /\
    refit JsonReader.gt r1 20 40 20 = Normal r2 /\
    tags r1 = [ []; lit "a" ] /\
    tags r2 = [ lit "a" ] /\
    r1 <> r2.
Proof.
  exists {| title := str "T"; description := str "D"; tags := [ []; lit "a" ] |},
         {| title := str "T"; description := str "D"; tags := [ lit "a" ] |}.
  split; [now vm_compute|]. split; [now vm_compute|].
  split; [reflexivity|]. split; [reflexivity|].
  intro H. apply (f_equal tags) in H. discriminate H.
Qed.

(** C5 as stated fails: a candidate whose title is the boolean [true]
    passes the shape check and is sent back with that title. *)
Lemma boolean_title_passes_validation :
  invalidShape (JBool true) (str "d") (JArray []) = false /\
  is_string (JBool true) = false /\
  shapeCompletion JsonReader.parse JsonReader.gt (Normal rawBooleanTitle) 20 40 20
  = Normal {| title := JBool true; description := str "d"; tags := [] |}.
Proof.
  split; [reflexivity|]. split; [reflexivity|]. now vm_compute.
Qed.

(** C6 as stated fails: under a tags limit of 20 the fallback result
    carries tags whose joined length is 47. *)
Lemma fallback_tags_exceed_budget :
  run unreachable (analyzeImage JsonReader.parse JsonReader.gt (request 120 600 20))
  = (ok (fallbackResult 120 600), [buildRequest (request 120 600 20)]) /\
  joinedLength (tags (fallbackResult 120 600)) = 47 /\
  ~ (joinedLength (tags (fallbackResult 120 600)) <= tagsLength (request 120 600 20)).
Proof.
  split; [reflexivity|]. split; [reflexivity|].
  vm_compute. intro H. now apply H.
Qed.


Lemma missing_image_rejected_witness :
  image requestWithoutImage = JUndefined /\
  run (answering rawA) (analyzeImage JsonReader.parse JsonReader.gt requestWithoutImage) = (badRequest, []).
Proof.
  split; [reflexivity|].
  apply (missing_image_rejected JsonReader.parse JsonReader.gt requestWithoutImage (answering rawA)).
  reflexivity.
Defined.


Lemma extractor_greedy_span_witness :
  (indexOf lbrace rawA = Some 6%nat /\ lastIndexOf rbrace rawA = Some 139%nat /\
   (6 < 139)%nat /\
   substring rawA 6 140 = spanA /\
   JsonReader.parse spanA = Some candidateA /\
   extractJson JsonReader.parse rawA = Normal candidateA) /\
  (indexOf lbrace rawB = None \/ indexOf rbrace rawB = None) /\
  extractJson JsonReader.parse rawB = Throw (Error (lit "Invalid response format from Gemini API")).
Proof.
  split; [|split].
  - split; [now vm_compute|]. split; [now vm_compute|]. split; [lia|].
    split; [now vm_compute|]. split; [now vm_compute|].
    rewrite (proj1 (extractor_greedy_span JsonReader.parse rawA) 6%nat 139%nat);
      [now vm_compute | now vm_compute | now vm_compute | lia].
  - left. now vm_compute.
  - apply (proj1 (proj2 (proj2 (extractor_greedy_span JsonReader.parse rawB)))).
    left. now vm_compute.
Defined.

Lemma failures_fall_back_witness :
  truthy (image (request 120 600 60)) = true /\
  PipelineFailure JsonReader.parse (unreachable (buildRequest (request 120 600 60))) /\
  run unreachable (analyzeImage JsonReader.parse JsonReader.gt (request 120 600 60))
  = ({| status := 200;
        payload :=
          JObject
            [ (lit "title", str "Image Analysis (Processing Complete)");
              (lit "description",
               str "The image has been processed and analyzed with detailed consideration of visual elements, composition, colors, and context.");
              (lit "tags", JArray [ str "Image Analysis"; str "Visual Processing";
                                    str "AI Detection" ]) ] |},
     [buildRequest (request 120 600 60)]) /\
  indexOf lbrace rawB = None /\
  run (answering rawB) (analyzeImage JsonReader.parse JsonReader.gt (request 20 40 60))
  = ({| status := 200;
        payload :=
          JObject
            [ (lit "title", str "Image Analysis (A...");
              (lit "description", str "The image has been processed and anal...");
              (lit "tags", JArray [ str "Image Analysis"; str "Visual Processing";
                                    str "AI Detection" ]) ] |},
     [buildRequest (request 20 40 60)]).
Proof.
  split; [reflexivity|]. split; [apply CallFailed|]. split; [|split; [now vm_compute|]].
  - apply (proj1 (failures_fall_back JsonReader.parse JsonReader.gt
                    (request 120 600 60) unreachable eq_refl)).
    apply CallFailed.
  - destruct (failures_fall_back JsonReader.parse JsonReader.gt
                (request 20 40 60) (answering rawB) eq_refl)
      as (_ & _ & Hbrace & _).
    apply (Hbrace rawB); [reflexivity | left; now vm_compute].
Defined.

Lemma tags_greedy_prefix_witness :
  (fitFields JsonReader.gt (str "A cat on a mat") (str "A small orange cat.")
     [str "cat"; str "mat"; str "indoor"; str "pet"] 20 40 20
   = Normal {| title := str "A cat on a mat"; description := str "A small orange cat.";
               tags := [lit "cat"; lit "mat"; lit "indoor"] |} /\
   exists k : nat,
     [lit "cat"; lit "mat"; lit "indoor"]
     = firstn k (normalizedTags [str "cat"; str "mat"; str "indoor"; str "pet"])) /\
  JsonReader.parse spanA = Some candidateA /\
  answering rawA (buildRequest (request 20 40 20)) = Normal rawA /\
  run (answering rawA) (analyzeImage JsonReader.parse JsonReader.gt (request 20 40 20))
  = (ok resultA, [buildRequest (request 20 40 20)]).
Proof.
  split; [split; [now vm_compute|]|].
  - destruct (proj1 (tags_greedy_prefix JsonReader.parse JsonReader.gt)
                (str "A cat on a mat") (str "A small orange cat.")
                [str "cat"; str "mat"; str "indoor"; str "pet"] 20 40 20
                {| title := str "A cat on a mat"; description := str "A small orange cat.";
                   tags := [lit "cat"; lit "mat"; lit "indoor"] |}
                ltac:(now vm_compute))
      as (k & _ & Hprefix & _).
    exists k. exact Hprefix.
  - split; [now vm_compute|]. split; [reflexivity|].
    apply (proj2 (tags_greedy_prefix JsonReader.parse JsonReader.gt) (answering rawA));
      [now vm_compute | reflexivity].
Defined.

Lemma validation_is_truthiness_witness :
  isArray (get_prop (lit "tags") [ (lit "title", str "X"); (lit "description", str "Y") ])
  = false /\
  shapeCandidate JsonReader.gt candidateC 20 40 20
  = Throw (Error (lit "Invalid response structure from Gemini API")).
Proof.
  split; [reflexivity|].
  apply (proj1 (validation_is_truthiness JsonReader.gt
                  [ (lit "title", str "X"); (lit "description", str "Y") ] 20 40 20)).
  right. right. reflexivity.
Defined.

Lemma results_within_budget_witness :
  truthy (image (request 120 600 60)) = true /\
  3 <= titleLength (request 120 600 60) /\
  3 <= descriptionLength (request 120 600 60) /\
  1 <= tagsLength (request 120 600 60) /\
  exists r : AnalysisResult,
    run (answering rawA) (analyzeImage JsonReader.parse JsonReader.gt (request 120 600 60))
    = (ok r, [buildRequest (request 120 600 60)]) /\
    (forall s, title r = JString s -> jslen s <= 120).
Proof.
  split; [reflexivity|]. split; [simpl; lia|]. split; [simpl; lia|]. split; [simpl; lia|].
  destruct (results_within_budget JsonReader.parse JsonReader.gt (request 120 600 60) (answering rawA) eq_refl
              ltac:(simpl; lia) ltac:(simpl; lia) ltac:(simpl; lia))
    as (r & Hrun & Htitle & _).
  exists r. split; [exact Hrun | exact Htitle].
Defined.


(** * Further properties of the server *)

(** ** Fitting one string *)

Lemma ellipsize_prefix (s : jsstring) (limit : Z) :
  3 <= limit -> limit < jslen s ->
  ellipsize s limit = firstn (Z.to_nat (limit - 3)) s ++ lit "...".
Proof.
  intros Hbig Hlong. rewrite ellipsize_long by assumption.
  rewrite substring_prefix. unfold clamp.
  now replace (Z.min (Z.max (limit - 3) 0) (jslen s)) with (limit - 3) by lia.
Qed.

(** X1.  Under a limit of three or more, a string comes out of the
    truncation either untouched, when it is within the limit, or as its
    own first [limit - 3] code units followed by three dots, and then
    its length is the limit exactly; it is never longer than it was. *)
Theorem truncation_keeps_prefix (s : jsstring) (limit : Z) :
  3 <= limit ->
  ((jslen s <= limit /\ ellipsize s limit = s) \/
   (limit < jslen s /\
    ellipsize s limit = firstn (Z.to_nat (limit - 3)) s ++ lit "..." /\
    jslen (ellipsize s limit) = limit)) /\
  jslen (ellipsize s limit) <= jslen s.
Proof.
  intro Hbig. destruct (Z_lt_le_dec limit (jslen s)) as [Hlong | Hshort].
  - split.
    + right. split; [exact Hlong|]. split.
      * now apply ellipsize_prefix.
      * now apply ellipsize_long_length.
    + rewrite ellipsize_long_length; lia.
  - split.
    + left. split; [exact Hshort | now apply ellipsize_short].
    + rewrite ellipsize_short; lia.
Qed.

(** ** All the tags, or a prefix of them *)

Lemma joinedLength_nonneg (l : list jsstring) : 0 <= joinedLength l.
Proof. unfold joinedLength. apply jslen_nonneg. Qed.

Lemma joinedLength_app_le (pre suf : list jsstring) :
  joinedLength pre <= joinedLength (pre ++ suf).
Proof.
  induction suf as [|t suf IH] using rev_ind.
  - rewrite app_nil_r. lia.
  - rewrite app_assoc, joinedLength_snoc. pose proof (jslen_nonneg t).
    destruct (Nat.eqb (List.length (pre ++ suf)) 0); lia.
Qed.

Lemma joinedLength_firstn_le (l : list jsstring) (k : nat) :
  joinedLength (firstn k l) <= joinedLength l.
Proof.
  rewrite <- (firstn_skipn k l) at 2. apply joinedLength_app_le.
Qed.

Lemma accumulate_monotone (L L' : Z) (rest : list jsstring) :
  L <= L' ->
  forall (i : nat) (current : Z),
  exists more, accumulate L' i current rest = accumulate L i current rest ++ more.
Proof.
  intro HL. induction rest as [|t rest IH]; intros i current; [now exists []|].
  simpl.
  destruct (Z.leb_spec (current + (if Nat.eqb i 0 then 0 else 2) + jslen t) L) as [Hfit | Hover].
  - destruct (Z.leb_spec (current + (if Nat.eqb i 0 then 0 else 2) + jslen t) L'); [|lia].
    destruct (IH (S i) (current + (if Nat.eqb i 0 then 0 else 2) + jslen t)) as [more Hmore].
    exists more. simpl. now rewrite Hmore.
  - eexists. simpl. reflexivity.
Qed.

Lemma finalTags_prefix (L : Z) (normalized : list jsstring) :
  exists k : nat,
    (k <= List.length normalized)%nat /\
    finalTags L normalized = firstn k normalized /\
    (forall tag, nth_error normalized k = Some tag ->
       L < joinedLength (firstn k normalized) + (if Nat.eqb k 0 then 0 else 2) + jslen tag).
Proof.
  destruct (accumulate_spec L normalized []) as (k & Hk & Hacc & _ & Hout).
  exists k. split; [exact Hk|]. split; [exact Hacc | exact Hout].
Qed.

(** X2.  With a tags limit that is not negative, the loop keeps every
    normalised tag exactly when all of them, joined, fit the limit; and
    raising the limit only ever appends tags to what a lower limit
    kept. *)
Theorem tags_all_kept_iff_fit (L : Z) (normalized : list jsstring) :
  0 <= L ->
  (finalTags L normalized = normalized <-> joinedLength normalized <= L) /\
  (forall L', L <= L' ->
     exists more, finalTags L' normalized = finalTags L normalized ++ more).
Proof.
  intro HL. split; [split|].
  - intro Hall. rewrite <- Hall. now apply finalTags_bound.
  - intro Hfit.
    destruct (finalTags_prefix L normalized) as (k & Hk & Hacc & Hout).
    rewrite Hacc.
    destruct (Nat.eq_dec k (List.length normalized)) as [-> | Hlt];
      [apply firstn_all|].
    exfalso. destruct (nth_error normalized k) as [tag|] eqn:Hnth.
    + specialize (Hout tag eq_refl).
      pose proof (joinedLength_firstn_le normalized (S k)) as Hle.
      rewrite (firstn_snoc_nth _ _ _ Hnth), joinedLength_snoc in Hle.
      rewrite length_firstn, Nat.min_l in Hle by lia. lia.
    + apply nth_error_None in Hnth. lia.
  - intros L' HL'. apply accumulate_monotone. exact HL'.
Qed.

(** ** Where the tags come from *)

Lemma stringTags_origin (elems : list JSValue) (raw : jsstring) :
  In raw (stringTags elems) -> In (JString raw) elems /\ trim raw <> [].
Proof.
  induction elems as [|e elems IH]; simpl; [tauto|].
  destruct e as [| |b|x|s|l|props]; try (intro H; split; [right|]; now apply IH).
  destruct (Z.gtb_spec (jslen (trim s)) 0) as [Hlen | Hlen].
  - intros [<- | H].
    + split; [now left|]. intro Hnil. rewrite Hnil in Hlen. discriminate Hlen.
    + split; [right|]; now apply IH.
  - intro H. split; [right|]; now apply IH.
Qed.

Lemma stringTags_length (elems : list JSValue) :
  (List.length (stringTags elems) <= List.length elems)%nat.
Proof.
  induction elems as [|e elems IH]; simpl; [lia|].
  destruct e; simpl; try lia. destruct (jslen (trim s) >? 0); simpl; lia.
Qed.

Section FitterFacts.

Variable js_gt : JSValue -> Z -> bool.

(** X3.  Every tag of a fitted result is the normalisation of a string
    element of the candidate's tags that is not blank; elements that are
    not strings (numbers, null, nested arrays, objects) are passed over,
    and the result never has more tags than the candidate had
    elements. *)
Theorem tags_come_from_strings (t d : JSValue) (elems : list JSValue) (Lt Ld Lg : Z)
    (r : AnalysisResult) :
  fitFields js_gt t d elems Lt Ld Lg = Normal r ->
  (forall tag, In tag (tags r) ->
     exists raw, In (JString raw) elems /\ trim raw <> [] /\ tag = normalizeTag raw) /\
  (List.length (tags r) <= List.length elems)%nat.
Proof.
  intro Hfit. apply fitFields_inv in Hfit as (_ & _ & Htags). split.
  - intros tag Hin. rewrite Htags in Hin. apply accumulate_incl in Hin.
    unfold normalizedTags in Hin. apply in_map_iff in Hin as (raw & <- & Hraw).
    apply stringTags_origin in Hraw as [Helem Hblank]. now exists raw.
  - rewrite Htags.
    destruct (finalTags_prefix Lg (normalizedTags elems)) as (k & Hk & Hacc & _).
    rewrite Hacc, length_firstn. unfold normalizedTags in *. rewrite length_map in *.
    pose proof (stringTags_length elems). lia.
Qed.

(** X4.  Fitting a field a second time under the same limit gives what
    the first fitting gave, for every value and every limit, limits
    below three included; this holds for exceptions too. *)
Theorem field_fitting_idempotent (v : JSValue) (limit : Z) :
  (v' <- fitField js_gt v limit ;; fitField js_gt v' limit) = fitField js_gt v limit.
Proof.
  unfold bind. destruct (fitField js_gt v limit) as [v'|e] eqn:Hfit; [|reflexivity].
  now apply fitField_idempotent with (v := v).
Qed.

End FitterFacts.

(** ** What normalisation does to a tag *)

Lemma collapsed_members (s : jsstring) (c : N) :
  forall prev, collapsed_from prev s = true -> In c s -> hash_or_ws c = true -> c = space.
Proof.
  induction s as [|d s IH]; intros prev Hs Hin Hc; [contradiction|].
  simpl in Hs. destruct Hin as [-> | Hin].
  - rewrite Hc in Hs. apply andb_prop in Hs as [Hs _]. apply andb_prop in Hs as [Hs _].
    now apply N.eqb_eq in Hs.
  - destruct (hash_or_ws d).
    + apply andb_prop in Hs as [_ Hs]. now apply (IH true).
    + now apply (IH false).
Qed.

Lemma collapsed_no_double_space (l r : jsstring) :
  forall prev, collapsed_from prev (l ++ space :: space :: r) = false.
Proof.
  induction l as [|c l IH]; intro prev.
  - simpl app. simpl collapsed_from. change (hash_or_ws space) with true. cbv iota.
    simpl negb. now rewrite !andb_false_r.
  - simpl. destruct (hash_or_ws c); [|apply IH].
    rewrite IH. apply andb_false_r.
Qed.

Lemma filter_replace_runs (s : jsstring) :
  forall in_run, filter outside_class (replace_runs in_run s) = filter outside_class s.
Proof.
  induction s as [|c s IH]; intro in_run; [reflexivity|].
  simpl. unfold outside_class at 2. destruct (hash_or_ws c) eqn:Hc; simpl.
  - destruct in_run; [apply IH|]. simpl. apply IH.
  - unfold outside_class at 1. rewrite Hc. simpl. now rewrite IH.
Qed.

Lemma filter_dropWhile (s : jsstring) :
  filter outside_class (dropWhile is_ws s) = filter outside_class s.
Proof.
  induction s as [|c s IH]; [reflexivity|].
  simpl. destruct (is_ws c) eqn:Hws; [|reflexivity].
  unfold outside_class at 2. now rewrite (is_ws_in_class c Hws).
Qed.

Lemma filter_trim (s : jsstring) : filter outside_class (trim s) = filter outside_class s.
Proof.
  unfold trim, trimEnd, trimStart.
  rewrite filter_rev, filter_dropWhile, filter_rev, rev_involutive.
  apply filter_dropWhile.
Qed.

(** X5.  A normalised tag holds no hash sign and no white space other
    than single U+0020 spaces, none of them at either end and no two of
    them adjacent; the code units of the raw tag outside the class
    [[#\s]] are all kept, in their order; and normalising the tag again
    changes nothing. *)
Theorem normalised_tag_shape (raw : jsstring) :
  (forall c, In c (normalizeTag raw) -> c <> hash /\ (is_ws c = true -> c = space)) /\
  (forall l r, normalizeTag raw <> l ++ space :: space :: r) /\
  starts_with_ws (normalizeTag raw) = false /\
  ends_with_ws (normalizeTag raw) = false /\
  filter outside_class (normalizeTag raw) = filter outside_class raw /\
  normalizeTag (normalizeTag raw) = normalizeTag raw.
Proof.
  destruct (normalizeTag_normalForm raw) as (Hc & Hs & He).
  split; [|split; [|split; [|split; [|split]]]]; try assumption.
  - intros c Hin. split.
    + intro Hhash. subst c.
      pose proof (collapsed_members _ hash false Hc Hin eq_refl) as H. discriminate H.
    + intro Hws. apply (collapsed_members _ c false Hc Hin). now apply is_ws_in_class.
  - intros l r Heq. unfold collapsed in Hc. rewrite Heq in Hc.
    rewrite collapsed_no_double_space in Hc. discriminate Hc.
  - unfold normalizeTag, replace_hash_ws. now rewrite filter_trim, filter_replace_runs.
  - apply normalizeTag_idempotent.
Qed.

(** ** The generation budget *)


(** ** The MIME type sent on *)

(** X7.  Whatever the request says, the MIME type handed to the model
    starts with [image/]: a string that starts so is passed on as it is,
    and anything else (another string, the empty string, a missing or
    non-string field) is replaced by [image/jpeg]; nothing is
    rejected. *)
Theorem mime_is_always_image (body : RequestBody) :
  startsWith (inlineMime (buildRequest body)) (lit "image/") = true /\
  (forall m, mimeType body = JString m -> startsWith m (lit "image/") = true ->
     inlineMime (buildRequest body) = m) /\
  ((forall m, mimeType body = JString m -> startsWith m (lit "image/") = false) ->
   inlineMime (buildRequest body) = lit "image/jpeg").
Proof.
  unfold buildRequest. simpl inlineMime. unfold safeMime.
  split; [|split].
  - destruct (mimeType body) as [| |b|x|m|l|props]; try reflexivity.
    destruct (startsWith m (lit "image/")) eqn:Hm; [exact Hm | reflexivity].
  - intros m -> Hm. now rewrite Hm.
  - intro Hnot. destruct (mimeType body) as [| |b|x|m|l|props]; try reflexivity.
    now rewrite (Hnot m eq_refl).
Qed.

(** ** The fallback texts *)

Lemma ellipsize_whole_iff (s : jsstring) (limit : Z) :
  3 < jslen s -> (ellipsize s limit = s <-> jslen s <= limit).
Proof.
  intro Hs. split; [|apply ellipsize_short].
  intro Heq. destruct (Z_lt_le_dec limit (jslen s)) as [Hlong | Hshort]; [|exact Hshort].
  exfalso. apply (f_equal jslen) in Heq.
  destruct (Z_lt_le_dec limit 3) as [Hsmall | Hbig].
  - rewrite ellipsize_dots in Heq by lia. rewrite dots_length in Heq. lia.
  - rewrite ellipsize_long_length in Heq by lia. lia.
Qed.

(** X8.  The fallback title is the whole template exactly when the
    title limit is between 25 and 30 or at least 36: a limit between 31
    and 35 selects the long template of 36 characters and then cuts it,
    and a limit below 25 cuts the short one.  The fallback description
    is whole exactly from a limit of 123.  Neither is ever empty. *)
Theorem fallback_texts_whole (Lt Ld : Z) :
  (title (fallbackResult Lt Ld) = JString (fallbackTitle Lt)
   <-> 25 <= Lt <= 30 \/ 36 <= Lt) /\
  (description (fallbackResult Lt Ld) = JString fallbackDescription <-> 123 <= Ld) /\
  title (fallbackResult Lt Ld) <> JString [] /\
  description (fallbackResult Lt Ld) <> JString [].
Proof.
  simpl title. simpl description.
  assert (Hlen : jslen (fallbackTitle Lt) = if Lt >? 30 then 36 else 25).
  { unfold fallbackTitle. now destruct (Lt >? 30). }
  split; [|split; [|split]].
  - split.
    + intro H. injection H as Heq. apply ellipsize_whole_iff in Heq.
      * rewrite Hlen in Heq. destruct (Z.gtb_spec Lt 30); lia.
      * rewrite Hlen. destruct (Lt >? 30); lia.
    + intro H. f_equal. apply ellipsize_short. rewrite Hlen.
      destruct (Z.gtb_spec Lt 30); lia.
  - change 123 with (jslen fallbackDescription). split.
    + intro H. injection H as Heq. apply ellipsize_whole_iff in Heq; [exact Heq|].
      now vm_compute.
    + intro H. f_equal. now apply ellipsize_short.
  - intro H. injection H as Heq. revert Heq. apply ellipsize_nonempty.
    unfold fallbackTitle. discriminate.
  - intro H. injection H as Heq. revert Heq. apply ellipsize_nonempty. discriminate.
Qed.

(** ** The span inside prose *)

Lemma star_close_last (inner post : jsstring) :
  indexOf rbrace post = None ->
  star_close (inner ++ rbrace :: post) = Some (inner ++ [rbrace]).
Proof.
  intro Hpost. induction inner as [|c inner IH].
  - simpl. rewrite star_close_spec.
    apply indexOf_none_lastIndexOf in Hpost. now rewrite Hpost.
  - simpl. now rewrite IH.
Qed.

Lemma brace_match_skips (pre s : jsstring) :
  indexOf lbrace pre = None -> brace_match (pre ++ s) = brace_match s.
Proof.
  induction pre as [|c pre IH]; intro Hpre; [reflexivity|].
  simpl in *. destruct (c =? lbrace)%N; [discriminate|].
  apply IH. now destruct (indexOf lbrace pre).
Qed.

(** ** Values on the wire *)

(** A property whose value is defined is written, its value as
    serialisation makes it. *)
Lemma wire_object_defined (k : jsstring) (v : JSValue) (rest : list (jsstring * JSValue)) :
  v <> JUndefined ->
  wire (JObject ((k, v) :: rest))
  = match wire (JObject rest) with
    | JObject members => JObject ((k, wire v) :: members)
    | other => other
    end.
Proof.
  intro Hv. destruct v; try reflexivity. now elim Hv.
Qed.

(** An array of strings arrives as it was sent. *)
Lemma wire_strings (l : list jsstring) :
  wire (JArray (List.map JString l)) = JArray (List.map JString l).
Proof.
  simpl. f_equal. rewrite map_map. now apply map_ext.
Qed.

(** A result with a truthy title and description on the wire. *)
Lemma wire_result (r : AnalysisResult) :
  truthy (title r) = true -> truthy (description r) = true ->
  wire (result_json r)
  = JObject [ (lit "title", wire (title r)); (lit "description", wire (description r));
              (lit "tags", JArray (List.map JString (tags r))) ].
Proof.
  intros Ht Hd. unfold result_json.
  rewrite (wire_object_defined (lit "title") (title r)) by (now destruct (title r)).
  rewrite (wire_object_defined (lit "description") (description r))
    by (now destruct (description r)).
  rewrite (wire_object_defined (lit "tags") (JArray (List.map JString (tags r))))
    by discriminate.
  now rewrite wire_strings.
Qed.

(** What the handler answers with under status 200 has a truthy title
    and a truthy description. *)
Lemma answered_result_truthy (JSON_parse : jsstring -> option JSValue)
    (js_gt : JSValue -> Z -> bool) (answer : Completion jsstring) (Lt Ld Lg : Z) :
  let r := match shapeCompletion JSON_parse js_gt answer Lt Ld Lg with
           | Normal r => r
           | Throw _ => fallbackResult Lt Ld
           end in
  truthy (title r) = true /\ truthy (description r) = true.
Proof.
  destruct (shapeCompletion JSON_parse js_gt answer Lt Ld Lg) as [r | e] eqn:Hshape; cbv zeta.
  - apply shapeCompletion_inv in Hshape as (text & span & candidate & _ & _ & _ & Hcand).
    apply shapeCandidate_inv in Hcand as (t & d & elems & _ & Hvalid & Hfit).
    apply (invalidShape_false_iff js_gt) in Hvalid as (Ht & Hd & _).
    pose proof (fitted_shape_valid JSON_parse js_gt t d elems _ _ _ r Ht Hd Hfit) as Hfitted.
    apply (invalidShape_false_iff js_gt) in Hfitted as (Ht' & Hd' & _). now split.
  - split; simpl; apply truthy_string_nonempty; apply ellipsize_nonempty;
      unfold fallbackTitle; discriminate.
Qed.

Section HandlerFacts.

Variable JSON_parse : jsstring -> option JSValue.
Variable js_gt : JSValue -> Z -> bool.

(** X9.  Prose before the first opening brace and after the last closing
    brace does not reach the parser: [JSON.parse] is given the text
    from that opening brace to that closing brace, whatever braces lie
    between them, and the extractor returns what the parser made of it,
    or the parse error when the parser threw. *)
Theorem prose_around_json_is_dropped (pre inner post : jsstring) :
  indexOf lbrace pre = None -> indexOf rbrace post = None ->
  brace_match (pre ++ lbrace :: inner ++ rbrace :: post) = Some (lbrace :: inner ++ [rbrace]) /\
  extractJson JSON_parse (pre ++ lbrace :: inner ++ rbrace :: post)
  = match JSON_parse (lbrace :: inner ++ [rbrace]) with
    | Some candidate => Normal candidate
    | None => Throw (Error (lit "Failed to parse Gemini API response"))
    end.
Proof.
  intros Hpre Hpost.
  assert (Hmatch : brace_match (pre ++ lbrace :: inner ++ rbrace :: post)
                   = Some (lbrace :: inner ++ [rbrace])).
  { rewrite brace_match_skips by exact Hpre. simpl.
    now rewrite star_close_last by exact Hpost. }
  split; [exact Hmatch|]. unfold extractJson, parseSpan. now rewrite Hmatch.
Qed.

(** X10.  For a request whose limits are numbers, the handler answers
    in one of two ways.  When the image is falsy (missing, null, false,
    zero, not a number or the empty string) it answers with status 400
    and the object whose [error] is [No image provided], and never calls
    the model.  Otherwise it calls the model exactly once, with the
    image of the request as inline data, under the MIME type of the
    request when that is a string starting with [image/] and
    [image/jpeg] otherwise, and answers with status 200. *)
Theorem one_call_or_bad_request (body : RequestBody)
    (model : GenRequest -> Completion jsstring) :
  (truthy (image body) = false /\
   run model (analyzeImage JSON_parse js_gt body)
   = ({| status := 400;
         payload := JObject [ (lit "error", JString (lit "No image provided")) ] |}, [])) \/
  (truthy (image body) = true /\
   (exists req : GenRequest,
      snd (run model (analyzeImage JSON_parse js_gt body)) = [req] /\
      inlineData req = image body /\
      inlineMime req
      = match mimeType body with
        | JString m => if startsWith m (lit "image/") then m else lit "image/jpeg"
        | _ => lit "image/jpeg"
        end) /\
   status (fst (run model (analyzeImage JSON_parse js_gt body))) = 200).
Proof.
  destruct (truthy (image body)) eqn:Himage.
  - right. split; [reflexivity|]. rewrite analyzeImage_run by exact Himage.
    split; [|reflexivity]. exists (buildRequest body). repeat split.
  - left. split; [reflexivity|]. unfold analyzeImage. now rewrite Himage.
Qed.

(** X11.  The object the handler hands to [res.json] under status 200,
    on the success path and on the fallback path alike, has the three
    fields with a truthy title, a truthy description and an array of
    strings as tags: taken as a candidate it passes the handler's own
    shape check.  In the JSON text of the answer the tags arrive as the
    same strings, and what arrives as title and as description is what
    serialisation makes of the two values: a string arrives as it is,
    a number that is infinite arrives as [null]. *)
Theorem sent_results_pass_shape_check (body : RequestBody)
    (model : GenRequest -> Completion jsstring) :
  truthy (image body) = true ->
  exists (t d : JSValue) (sent : list jsstring),
    fst (run model (analyzeImage JSON_parse js_gt body))
    = {| status := 200;
         payload := JObject [ (lit "title", t); (lit "description", d);
                              (lit "tags", JArray (List.map JString sent)) ] |} /\
    truthy t = true /\ truthy d = true /\
    destructure (payload (fst (run model (analyzeImage JSON_parse js_gt body))))
    = Normal (t, d, JArray (List.map JString sent)) /\
    invalidShape t d (JArray (List.map JString sent)) = false /\
    wire (payload (fst (run model (analyzeImage JSON_parse js_gt body))))
    = JObject [ (lit "title", wire t); (lit "description", wire d);
                (lit "tags", JArray (List.map JString sent)) ] /\
    (forall s : jsstring, t = JString s -> wire t = JString s) /\
    (forall s : jsstring, d = JString s -> wire d = JString s) /\
    (forall x : PrimFloat.float,
       t = JNumber x -> PrimFloat.is_infinity x = true -> wire t = JNull).
Proof.
  intro Himage. rewrite analyzeImage_run by exact Himage. simpl fst.
  destruct (answered_result_truthy JSON_parse js_gt (model (buildRequest body))
              (titleLength body) (descriptionLength body) (tagsLength body)) as [Ht Hd].
  set (r := match shapeCompletion JSON_parse js_gt (model (buildRequest body))
                    (titleLength body) (descriptionLength body) (tagsLength body) with
            | Normal r => r
            | Throw _ => fallbackResult (titleLength body) (descriptionLength body)
            end) in *.
  exists (title r), (description r), (tags r).
  split; [reflexivity|]. split; [exact Ht|]. split; [exact Hd|].
  split; [reflexivity|].
  split; [apply (invalidShape_false_iff js_gt); repeat split; assumption|].
  split; [now apply wire_result|].
  split; [intros s ->; reflexivity|]. split; [intros s ->; reflexivity|].
  intros x -> Hx. simpl. rewrite Hx. now rewrite orb_true_r.
Qed.

(** X12.  The success path, end to end.  When the model's text holds a
    span that parses to an object with a non-empty string title, a
    non-empty string description and an array of tags, the handler
    answers with status 200, after one call to the model, with an
    object of three fields: the title, whole when it is no longer than
    the title limit and otherwise its first [limit - 3] code units
    followed by three dots; the description by the same rule; and as
    tags the first [k] normalised tags, each of which passed the length
    test of the loop while the tag that follows them failed it.  Nothing
    else in the completion or the request has a part in the result. *)
Theorem success_path (body : RequestBody) (model : GenRequest -> Completion jsstring)
    (text span : jsstring) (props : list (jsstring * JSValue))
    (title0 description0 : jsstring) (elems : list JSValue) :
  truthy (image body) = true ->
  model (buildRequest body) = Normal text ->
  brace_match text = Some span ->
  JSON_parse span = Some (JObject props) ->
  get_prop (lit "title") props = JString title0 -> title0 <> [] ->
  get_prop (lit "description") props = JString description0 -> description0 <> [] ->
  get_prop (lit "tags") props = JArray elems ->
  exists k : nat,
    run model (analyzeImage JSON_parse js_gt body)
    = ({| status := 200;
          payload :=
            JObject
              [ (lit "title",
                 JString (if jslen title0 >? titleLength body
                          then substring title0 0 (titleLength body - 3) ++ lit "..."
                          else title0));
                (lit "description",
                 JString (if jslen description0 >? descriptionLength body
                          then substring description0 0 (descriptionLength body - 3)
                                 ++ lit "..."
                          else description0));
                (lit "tags", JArray (List.map JString (firstn k (normalizedTags elems)))) ] |},
       [buildRequest body]) /\
    (k <= List.length (normalizedTags elems))%nat /\
    (forall i tag, (i < k)%nat -> nth_error (normalizedTags elems) i = Some tag ->
       joinedLength (firstn i (normalizedTags elems))
       + (if Nat.eqb i 0 then 0 else 2) + jslen tag <= tagsLength body) /\
    (forall tag, nth_error (normalizedTags elems) k = Some tag ->
       tagsLength body < joinedLength (firstn k (normalizedTags elems))
                         + (if Nat.eqb k 0 then 0 else 2) + jslen tag).
Proof.
  intros Himage Hanswer Hspan Hparse Ht Hne1 Hd Hne2 Hg.
  destruct (accumulate_spec (tagsLength body) (normalizedTags elems) [])
    as (k & Hk & Hacc & Hin & Hout).
  exists k. split; [|split; [exact Hk|split]].
  - rewrite analyzeImage_run by exact Himage. rewrite Hanswer.
    unfold shapeCompletion, bind, extractJson, parseSpan. rewrite Hspan, Hparse.
    unfold shapeCandidate, bind, destructure. rewrite Ht, Hd, Hg.
    replace (invalidShape (JString title0) (JString description0) (JArray elems)) with false.
    + unfold fitFields, fitField, bind, finalTags, ok, result_json. cbn [title description tags].
      change (joinedLength []) with 0 in Hacc. change (List.length (@nil jsstring)) with O in Hacc.
      now rewrite Hacc.
    + symmetry. apply (invalidShape_false_iff js_gt).
      repeat split; now apply truthy_string_nonempty.
  - intros i tag Hi Hnth. exact (Hin i tag Hi Hnth).
  - intros tag Hnth. exact (Hout tag Hnth).
Qed.

(** X13.  Fitting a second time.  When none of the tags of a fitted
    result is the empty string, the result passes the shape check again
    (given the candidate did) and fitting it under the same three
    limits returns it unchanged, whatever the limits are. *)
Theorem refitting_is_identity (t d : JSValue) (elems : list JSValue) (Lt Ld Lg : Z)
    (r : AnalysisResult) :
  fitFields js_gt t d elems Lt Ld Lg = Normal r ->
  (forall tag, In tag (tags r) -> tag <> []) ->
  Scenario.refit js_gt r Lt Ld Lg = Normal r /\
  (invalidShape t d (JArray elems) = false ->
   invalidShape (title r) (description r) (JArray (List.map JString (tags r))) = false).
Proof.
  intros Hfit Hne. split.
  - now apply refit_identity with (t := t) (d := d) (elems := elems).
  - intro Hvalid. apply (invalidShape_false_iff js_gt) in Hvalid as (Ht & Hd & _).
    exact (fitted_shape_valid JSON_parse js_gt t d elems _ _ _ r Ht Hd Hfit).
Qed.

End HandlerFacts.

(** * Properties of the browser client *)

(** ** The payload of a data URL *)

Lemma split_on_whole (sep : N) (s : jsstring) :
  indexOf sep s = None -> Client.split_on sep s = [s].
Proof.
  induction s as [|c s IH]; intro H; [reflexivity|].
  simpl in *. destruct (c =? sep)%N; [discriminate|].
  rewrite IH; [reflexivity|]. now destruct (indexOf sep s).
Qed.

Lemma split_on_first (sep : N) (h r : jsstring) :
  indexOf sep h = None -> Client.split_on sep (h ++ sep :: r) = h :: Client.split_on sep r.
Proof.
  induction h as [|c h IH]; intro H.
  - simpl. now rewrite N.eqb_refl.
  - simpl in *. destruct (c =? sep)%N; [discriminate|].
    rewrite IH; [reflexivity|]. now destruct (indexOf sep h).
Qed.

(** X14.  From a data URL, a header without a comma followed by a comma
    and the payload, [convertFileToBase64] resolves with the payload
    whole when the payload has no comma (as base64 text has none), and
    with the payload up to its first comma otherwise; from a text
    without any comma it resolves with [undefined]. *)
Theorem data_url_payload_extracted (header payload : jsstring) :
  indexOf Client.comma header = None ->
  (indexOf Client.comma payload = None ->
   Client.dataUrlPayload (header ++ Client.comma :: payload) = JString payload) /\
  (forall rest, indexOf Client.comma payload = None ->
     Client.dataUrlPayload (header ++ Client.comma :: payload ++ Client.comma :: rest)
     = JString payload) /\
  Client.dataUrlPayload header = JUndefined.
Proof.
  intro Hheader. unfold Client.dataUrlPayload. split; [|split].
  - intro Hpayload. rewrite split_on_first by exact Hheader.
    now rewrite split_on_whole by exact Hpayload.
  - intros rest Hpayload. rewrite split_on_first by exact Hheader.
    now rewrite split_on_first by exact Hpayload.
  - now rewrite split_on_whole by exact Hheader.
Qed.

(** ** The test for a network error *)

Lemma matchesAt_iff (pattern : jsstring) :
  forall s, Client.matchesAt pattern s = true <->
            exists w rest, s = w ++ rest /\
                           List.map Client.foldCase w = List.map Client.foldCase pattern.
Proof.
  induction pattern as [|p ps IH]; intro s.
  - split; [|now destruct s]. intros _. now exists [], s.
  - destruct s as [|c cs]; simpl.
    + split; [discriminate|]. intros (w & rest & Hs & Hw).
      destruct w; [discriminate Hw | discriminate Hs].
    + rewrite andb_true_iff, N.eqb_eq, IH. split.
      * intros (Hc & w & rest & -> & Hw). exists (c :: w), rest. split; [reflexivity|].
        simpl. now rewrite Hc, Hw.
      * intros (w & rest & Hs & Hw). destruct w as [|d w]; [discriminate Hw|].
        simpl in Hs, Hw. inversion Hs; subst. inversion Hw.
        split; [congruence|]. now exists w, rest.
Qed.

Lemma regexTest_iff (alternatives : list jsstring) (s : jsstring) :
  Client.regexTest alternatives s = true <->
  exists pre w post a,
    In a alternatives /\ s = pre ++ w ++ post /\
    List.map Client.foldCase w = List.map Client.foldCase a.
Proof.
  split.
  - induction s as [|c s IH]; simpl; rewrite orb_true_iff.
    + intros [H | H]; [|discriminate].
      apply existsb_exists in H as (a & Ha & Hm).
      apply matchesAt_iff in Hm as (w & rest & Hs & Hw). now exists [], w, rest, a.
    + intros [H | H].
      * apply existsb_exists in H as (a & Ha & Hm).
        apply matchesAt_iff in Hm as (w & rest & Hs & Hw). now exists [], w, rest, a.
      * destruct (IH H) as (pre & w & post & a & Ha & -> & Hw).
        now exists (c :: pre), w, post, a.
  - intros (pre & w & post & a & Ha & -> & Hw).
    induction pre as [|c pre IH].
    + assert (Hhere : existsb (fun a => Client.matchesAt a (w ++ post)) alternatives = true).
      { apply existsb_exists. exists a. split; [exact Ha|].
        apply matchesAt_iff. now exists w, post. }
      simpl app. destruct (w ++ post); simpl; now rewrite Hhere.
    + simpl. rewrite IH. apply orb_true_r.
Qed.

(** X15.  The client takes an error for a network error exactly when its
    message holds, somewhere and in any mix of upper and lower case,
    the words "Failed to fetch" or the word "NetworkError"; the third
    alternative of the pattern adds nothing, and an error without a
    message is never taken for one. *)
Theorem network_error_test (message : jsstring) :
  (Client.isNetworkError message = true <->
   exists pre w post,
     message = pre ++ w ++ post /\
     (List.map Client.foldCase w = List.map Client.foldCase (lit "Failed to fetch") \/
      List.map Client.foldCase w = List.map Client.foldCase (lit "NetworkError"))) /\
  Client.isNetworkError (Client.messageOrEmpty Client.ProgressEvent) = false.
Proof.
  split; [|reflexivity].
  unfold Client.isNetworkError. rewrite regexTest_iff. split.
  - intros (pre & w & post & a & Ha & Hm & Hw).
    destruct Ha as [<- | [<- | [<- | []]]].
    + exists pre, w, post. auto.
    + exists pre, w, post. auto.
    + exists (pre ++ firstn 11 w), (skipn 11 w), post. split.
      * rewrite Hm, <- !app_assoc. f_equal. rewrite app_assoc. f_equal.
        symmetry. apply firstn_skipn.
      * left. rewrite <- skipn_map, Hw. reflexivity.
  - intros (pre & w & post & Hm & [Hw | Hw]).
    + exists pre, w, post, (lit "Failed to fetch"). split; [now left | auto].
    + exists pre, w, post, (lit "NetworkError"). split; [right; now left | auto].
Qed.

(** ** The call to the backend *)

Lemma run_andThen {A B : Type} (env : Client.Browser) (p : Client.Prog A)
    (f : A -> Client.Prog B) :
  Client.run env (Client.andThen p f) =
  (fst (Client.run env (f (fst (Client.run env p)))),
   snd (Client.run env p) ++ snd (Client.run env (f (fst (Client.run env p))))).
Proof.
  induction p as [a | k IH | k IH | file k IH | body k IH]; simpl.
  - now destruct (Client.run env (f a)).
  - rewrite IH. now destruct (Client.run env (k (Client.connectivity env))).
  - apply IH.
  - apply IH.
  - rewrite IH. now destruct (Client.run env (k (Client.backend env body))).
Qed.

Lemma rethrow_returned {A : Type} (o : Client.Outcome A) (a : A) :
  Client.rethrow o = Client.Returned a <-> o = Client.Returned a.
Proof.
  destruct o as [a' | e]; simpl; [tauto|].
  destruct (Client.isNetworkError (Client.messageOrEmpty e)); split; discriminate.
Qed.

Lemma rethrow_raised {A : Type} (o : Client.Outcome A) (e : Client.Thrown) :
  Client.rethrow o = Client.Raised e ->
  e = Client.ErrorObject Client.cannotReach \/
  (o = Client.Raised e /\ Client.isNetworkError (Client.messageOrEmpty e) = false).
Proof.
  destruct o as [a | e']; simpl; [discriminate|].
  destruct (Client.isNetworkError (Client.messageOrEmpty e')) eqn:Hnet; intro H; inversion H.
  - now left.
  - subst. now right.
Qed.

Section ClientFacts.

Variable readFailure : JSValue -> jsstring -> jsstring.
Variable otherText : JSValue -> Client.Outcome jsstring.

Lemma readResponse_returned (outcome : Client.FetchOutcome) (v : JSValue) :
  Client.readResponse readFailure otherText outcome = Client.Returned v <->
  exists status, Client.response_ok status = true /\
                 outcome = Client.HttpResponse status (Client.JsonValue v).
Proof.
  split.
  - destruct outcome as [message | status [result | message]]; simpl; try discriminate.
    + destruct (Client.response_ok status) eqn:Hok.
      * intro H. inversion H. now exists status.
      * destruct (Client.errorField readFailure result) as [field | e]; [|discriminate].
        destruct (Client.errorText otherText field); discriminate.
    + destruct (Client.response_ok status); discriminate.
  - intros (status & Hok & ->). simpl. now rewrite Hok.
Qed.

Lemma analyzeImageWithAPI_run (st : Client.State) (image0 : JSValue) (mime : jsstring)
    (env : Client.Browser) :
  Client.run env (Client.analyzeImageWithAPI readFailure otherText st image0 mime) =
  if nullish image0
  then (Client.rethrow (Client.Raised (Client.ErrorObject (readFailure image0 (lit "length")))),
        [])
  else let body := mkRequestBody image0 (JString mime) (Client.titleLength st)
                     (Client.descriptionLength st) (Client.tagsLength st) in
       (Client.rethrow (Client.readResponse readFailure otherText (Client.backend env body)),
        [Client.PostAnalyzeImage body]).
Proof. destruct image0; reflexivity. Qed.

(** X16.  [analyzeImageWithAPI] sends one POST carrying the image, the
    MIME type and the three limits of the state, or none when the image
    is [undefined].  It returns a value exactly when the backend answers
    with a status from 200 to 299 and a body that parses, and then
    returns that body untouched.  Every error it throws either is the
    fixed "Cannot reach the AI server" error or has a message the
    network test rejects. *)
Theorem api_call_outcome (st : Client.State) (image0 : JSValue) (mime : jsstring)
    (env : Client.Browser) :
  let body := mkRequestBody image0 (JString mime) (Client.titleLength st)
                (Client.descriptionLength st) (Client.tagsLength st) in
  let call := Client.run env (Client.analyzeImageWithAPI readFailure otherText st image0 mime) in
  snd call = (if nullish image0 then [] else [Client.PostAnalyzeImage body]) /\
  (forall v, fst call = Client.Returned v <->
             nullish image0 = false /\
             exists status, Client.response_ok status = true /\
                            Client.backend env body
                            = Client.HttpResponse status (Client.JsonValue v)) /\
  (forall e, fst call = Client.Raised e ->
             e = Client.ErrorObject Client.cannotReach \/
             Client.isNetworkError (Client.messageOrEmpty e) = false).
Proof.
  intros body call. subst call. rewrite analyzeImageWithAPI_run. fold body.
  destruct (nullish image0) eqn:Hnull; cbn [fst snd].
  - split; [reflexivity|]. split.
    + intro v. rewrite rethrow_returned. split; [discriminate | intros [H _]; discriminate].
    + intros e He. apply rethrow_raised in He as [He | [_ He]]; auto.
  - split; [reflexivity|]. split.
    + intro v. rewrite rethrow_returned, readResponse_returned. tauto.
    + intros e He. apply rethrow_raised in He as [He | [_ He]]; auto.
Qed.

(** ** The click on the button *)

Lemma processImage_run (st : Client.State) (env : Client.Browser) :
  exists o,
    Client.run env (Client.processImage readFailure otherText st) = (o, [Client.GetTest]) \/
    exists (f : Client.File) (payload : jsstring),
      Client.chosenFile env = Some f /\
      Client.run env (Client.processImage readFailure otherText st)
      = (o, [Client.GetTest;
             Client.PostAnalyzeImage
               (mkRequestBody (JString payload) (JString (Client.fileType f))
                  (Client.titleLength st) (Client.descriptionLength st)
                  (Client.tagsLength st))]).
Proof.
  unfold Client.processImage. simpl Client.run.
  destruct (Client.chosenFile env) as [f|] eqn:Hfile; simpl; [|eauto].
  destruct (Client.fileReader env f) as [result|]; simpl; [|eauto].
  unfold Client.dataUrlPayload.
  destruct (Client.split_on Client.comma result) as [|h [|payload rest]]; simpl; eauto.
  eexists. right. exists f, payload. split; reflexivity.
Qed.

Lemma handleGenerateResults_run (st : Client.State) (env : Client.Browser) :
  truthy (Client.image st) = true ->
  Client.run env (Client.handleGenerateResults readFailure otherText st) =
  ([ Client.SetIsProcessing true; Client.SetError JNull ]
   ++ match fst (Client.run env (Client.processImage readFailure otherText st)) with
      | Client.Returned results => [ Client.SetResults results ]
      | Client.Raised e =>
          [ Client.SetError (JString (lit "Error processing image: " ++ Client.messageText e
                                        ++ lit ". Please try again.")) ]
      end
   ++ [ Client.SetIsProcessing false ],
   snd (Client.run env (Client.processImage readFailure otherText st))).
Proof.
  intro Himage. unfold Client.handleGenerateResults. rewrite Himage. simpl negb. cbv iota.
  rewrite run_andThen. simpl. now rewrite app_nil_r.
Qed.

(** X17.  What a click on the button does to the state.  Image and
    limits are never touched.  Without an image only the error changes,
    to the request to upload one, and nothing is sent.  With an image
    the probe is sent, then at most one POST with the limits of the
    state; when all setter calls are applied [isProcessing] is false,
    and either the results are replaced and the error is cleared, or
    the results stay as they were and the error reads "Error processing
    image: ", a message, ". Please try again.". *)
Theorem click_updates_state (st : Client.State) (env : Client.Browser) :
  let click := Client.run env (Client.handleGenerateResults readFailure otherText st) in
  let st' := Client.applyAll st (fst click) in
  Client.image st' = Client.image st /\
  Client.titleLength st' = Client.titleLength st /\
  Client.descriptionLength st' = Client.descriptionLength st /\
  Client.tagsLength st' = Client.tagsLength st /\
  (truthy (Client.image st) = false ->
   snd click = [] /\
   Client.isProcessing st' = Client.isProcessing st /\
   Client.results st' = Client.results st /\
   Client.error st' = JString (lit "Please upload an image first!")) /\
  (truthy (Client.image st) = true ->
   Client.isProcessing st' = false /\
   (snd click = [Client.GetTest] \/
    exists (f : Client.File) (payload : jsstring),
      Client.chosenFile env = Some f /\
      snd click = [Client.GetTest;
                   Client.PostAnalyzeImage
                     (mkRequestBody (JString payload) (JString (Client.fileType f))
                        (Client.titleLength st) (Client.descriptionLength st)
                        (Client.tagsLength st))]) /\
   ((In (Client.SetResults (Client.results st')) (fst click) /\ Client.error st' = JNull) \/
    (Client.results st' = Client.results st /\
     exists message,
       Client.error st'
       = JString (lit "Error processing image: " ++ message ++ lit ". Please try again.")))).
Proof.
  intros click st'. subst st' click.
  destruct (truthy (Client.image st)) eqn:Himage.
  - rewrite handleGenerateResults_run by exact Himage.
    destruct (processImage_run st env) as [o Hrun].
    destruct (Client.run env (Client.processImage readFailure otherText st))
      as [outcome sent].
    assert (Hsent : sent = [Client.GetTest] \/
                    exists (f : Client.File) (payload : jsstring),
                      Client.chosenFile env = Some f /\
                      sent = [Client.GetTest;
                              Client.PostAnalyzeImage
                                (mkRequestBody (JString payload) (JString (Client.fileType f))
                                   (Client.titleLength st) (Client.descriptionLength st)
                                   (Client.tagsLength st))]).
    { destruct Hrun as [Hrun | (f & payload & Hf & Hrun)]; inversion Hrun; eauto. }
    cbn [fst snd]. clear Hrun.
    destruct outcome as [received | e]; simpl.
    + repeat split; try discriminate; try reflexivity; try exact Hsent.
      left. split; [|reflexivity]. right. right. now left.
    + repeat split; try discriminate; try reflexivity; try exact Hsent.
      right. split; [reflexivity|]. now exists (Client.messageText e).
  - unfold Client.handleGenerateResults. rewrite Himage. simpl.
    repeat split; try discriminate; reflexivity.
Qed.

End ClientFacts.

(** ** The limits a client can send *)

Lemma answer_within_limits (JSON_parse : jsstring -> option JSValue)
    (js_gt : JSValue -> Z -> bool) (answer : Completion jsstring) (Lt Ld Lg : Z) :
  let r := match shapeCompletion JSON_parse js_gt answer Lt Ld Lg with
           | Normal r => r
           | Throw _ => fallbackResult Lt Ld
           end in
  (3 <= Lt -> forall s, title r = JString s -> jslen s <= Lt) /\
  (3 <= Ld -> forall s, description r = JString s -> jslen s <= Ld).
Proof.
  destruct (shapeCompletion JSON_parse js_gt answer Lt Ld Lg) as [r | e] eqn:Hshape; cbv zeta.
  - apply shapeCompletion_inv in Hshape as (text & span & candidate & _ & _ & _ & Hcand).
    apply shapeCandidate_inv in Hcand as (t & d & elems & _ & _ & Hfit).
    apply fitFields_inv in Hfit as (Hft & Hfd & _). split.
    + intros Ht s Hs. rewrite Hs in Hft. exact (fitField_bound js_gt _ _ _ Ht Hft).
    + intros Hd s Hs. rewrite Hs in Hfd. exact (fitField_bound js_gt _ _ _ Hd Hfd).
  - simpl. split; intros Hl s Hs; injection Hs as <-; now apply ellipsize_bound.
Qed.

Section ClientServer.

Variable readFailure : JSValue -> jsstring -> jsstring.
Variable otherText : JSValue -> Client.Outcome jsstring.

(** ** A click, served by the handler *)

Variable JSON_parse : jsstring -> option JSValue.
Variable js_gt : JSValue -> Z -> bool.

(** X19.  Client and server together.  From a state with an image
    selected, a file whose data URL has a comma-free header and
    payload, and the server as backend: the click sends the probe and
    one POST and ends with [isProcessing] false.  When the payload is
    empty the server answers with status 400 without calling the model
    and the user reads "Error processing image:
    Server error: 400 - No image provided. Please try again." over the
    old results.  Otherwise the server calls the model once and answers
    with status 200 and an object of title, description and tags; the
    error is cleared and the results are that object as it arrives in
    JSON: the same tags, and the title and the description as
    serialisation makes them, a string unchanged and, for a limit of
    three or more in the state, within that limit, a number that is
    infinite as [null]. *)
Theorem click_served_by_handler (st : Client.State) (env : Client.Browser)
    (model : GenRequest -> Completion jsstring) (f : Client.File)
    (header content : jsstring) :
  truthy (Client.image st) = true ->
  Client.chosenFile env = Some f ->
  Client.fileReader env f = Client.Loaded (header ++ Client.comma :: content) ->
  indexOf Client.comma header = None ->
  indexOf Client.comma content = None ->
  Client.backend env = served JSON_parse js_gt model ->
  let body := mkRequestBody (JString content) (JString (Client.fileType f))
                (Client.titleLength st) (Client.descriptionLength st)
                (Client.tagsLength st) in
  let click := Client.run env (Client.handleGenerateResults readFailure otherText st) in
  let st' := Client.applyAll st (fst click) in
  snd click = [Client.GetTest; Client.PostAnalyzeImage body] /\
  Client.isProcessing st' = false /\
  (content = [] ->
   run model (analyzeImage JSON_parse js_gt body)
   = ({| status := 400;
         payload := JObject [ (lit "error", JString (lit "No image provided")) ] |}, []) /\
   Client.results st' = Client.results st /\
   Client.error st'
   = JString (lit "Error processing image: Server error: 400 - No image provided. Please try again.")) /\
  (content <> [] ->
   exists (t d : JSValue) (sent : list jsstring),
     run model (analyzeImage JSON_parse js_gt body)
     = ({| status := 200;
           payload := JObject [ (lit "title", t); (lit "description", d);
                                (lit "tags", JArray (List.map JString sent)) ] |},
        [buildRequest body]) /\
     Client.error st' = JNull /\
     Client.results st'
     = JObject [ (lit "title", wire t); (lit "description", wire d);
                 (lit "tags", JArray (List.map JString sent)) ] /\
     (forall s : jsstring,
        t = JString s ->
        wire t = JString s /\ (3 <= Client.titleLength st -> jslen s <= Client.titleLength st)) /\
     (forall s : jsstring,
        d = JString s ->
        wire d = JString s /\
        (3 <= Client.descriptionLength st -> jslen s <= Client.descriptionLength st)) /\
     (forall x : PrimFloat.float,
        t = JNumber x -> PrimFloat.is_infinity x = true -> wire t = JNull)).
Proof.
  intros Himage Hfile Hread Hheader Hpayload Hbackend body click st'.
  assert (Hprocess :
            Client.run env (Client.processImage readFailure otherText st)
            = (Client.rethrow
                 (Client.readResponse readFailure otherText (served JSON_parse js_gt model body)),
               [Client.GetTest; Client.PostAnalyzeImage body])).
  { unfold Client.processImage. simpl Client.run. rewrite Hfile. simpl Client.run.
    rewrite Hread. simpl Client.andThen. unfold Client.dataUrlPayload.
    rewrite split_on_first by exact Hheader. rewrite split_on_whole by exact Hpayload.
    rewrite analyzeImageWithAPI_run. simpl nullish. cbv iota. fold body.
    now rewrite Hbackend. }
  subst click st'. rewrite handleGenerateResults_run by exact Himage. rewrite Hprocess.
  cbn [fst snd]. split; [reflexivity|].
  unfold served.
  change (mkRequestBody (wire (image body)) (wire (mimeType body)) (titleLength body)
            (descriptionLength body) (tagsLength body)) with body.
  destruct content as [|c content].
  - split; [reflexivity|]. split; [|intro H; now contradiction H].
    intros _. repeat split.
  - assert (Htruthy : truthy (image body) = true).
    { apply truthy_string_nonempty. discriminate. }
    rewrite (analyzeImage_run JSON_parse js_gt body model Htruthy).
    cbn [fst snd].
    destruct (answered_result_truthy JSON_parse js_gt (model (buildRequest body))
                (titleLength body) (descriptionLength body) (tagsLength body)) as [Ht Hd].
    pose proof (answer_within_limits JSON_parse js_gt (model (buildRequest body))
                  (Client.titleLength st) (Client.descriptionLength st)
                  (Client.tagsLength st)) as Hlimits.
    cbv zeta in Hlimits.
    change (titleLength body) with (Client.titleLength st) in *.
    change (descriptionLength body) with (Client.descriptionLength st) in *.
    change (tagsLength body) with (Client.tagsLength st) in *.
    set (r := match shapeCompletion JSON_parse js_gt (model (buildRequest body))
                      (Client.titleLength st) (Client.descriptionLength st)
                      (Client.tagsLength st) with
              | Normal r => r
              | Throw _ => fallbackResult (Client.titleLength st) (Client.descriptionLength st)
              end) in *.
    unfold ok. cbn [status payload]. rewrite (wire_result r Ht Hd).
    simpl Client.readResponse. simpl Client.rethrow.
    split; [reflexivity|]. split; [discriminate|]. intros _.
    exists (title r), (description r), (tags r).
    split; [reflexivity|].
    split; [reflexivity|]. split; [reflexivity|].
    split; [|split].
    + intros s Hs. split; [now rewrite Hs|]. intro Hthree.
      now apply (proj1 Hlimits Hthree).
    + intros s Hs. split; [now rewrite Hs|]. intro Hthree.
      now apply (proj2 Hlimits Hthree).
    + intros x Hx Hinf. rewrite Hx. simpl. rewrite Hinf. now rewrite orb_true_r.
Qed.

End ClientServer.


(** * The instruction text *)

Lemma uint_digits (d : Decimal.uint) (c : N) :
  In c (lit (NilEmpty.string_of_uint d)) -> (48 <= c <= 57)%N.
Proof.
  induction d; simpl; intro H; try contradiction;
    (destruct H as [<- | H]; [vm_compute; split; discriminate | now apply IHd]).
Qed.

Lemma of_Z_no_space (n : Z) (c : N) : In c (of_Z n) -> c <> space.
Proof.
  unfold of_Z. intros H Hc. subst c.
  assert (Hu : forall d, In space (lit (NilZero.string_of_uint d)) -> False).
  { intros d Hd.
    destruct d;
      try (apply uint_digits in Hd; vm_compute in Hd; destruct Hd as [Hd _]; now apply Hd).
    simpl in Hd. destruct Hd as [Hd | []]. discriminate Hd. }
  destruct (Z.to_int n) as [d | d]; simpl in H.
  - now apply Hu in H.
  - destruct H as [H | H]; [discriminate H | now apply Hu in H].
Qed.

Lemma lit_injective (a b : string) : lit a = lit b -> a = b.
Proof.
  unfold lit. intro H.
  rewrite <- (string_of_list_ascii_of_string a), <- (string_of_list_ascii_of_string b).
  f_equal. revert H. generalize (list_ascii_of_string a) (list_ascii_of_string b).
  induction l as [|x l IH]; intros [|y l'] H; simpl in H; try discriminate; [reflexivity|].
  injection H as Hxy Hl. f_equal; [|now apply IH].
  rewrite <- (ascii_N_embedding x), <- (ascii_N_embedding y). now rewrite Hxy.
Qed.

(** The decimal rendering of an integer tells the integer. *)
Lemma of_Z_injective (a b : Z) : of_Z a = of_Z b -> a = b.
Proof.
  unfold of_Z. intro H. apply lit_injective in H.
  apply DecimalZ.to_int_inj.
  assert (Hn : forall z, Z.to_int z <> Decimal.Pos Decimal.Nil /\
                         Z.to_int z <> Decimal.Neg Decimal.Nil).
  { intros [|q|q]; simpl; split; try discriminate; intro Hq; injection Hq as Hq;
      now apply DecimalPos.Unsigned.to_uint_nonnil in Hq. }
  destruct (Hn a) as [Ha1 Ha2]. destruct (Hn b) as [Hb1 Hb2].
  pose proof (NilZero.isi _ Ha1 Ha2) as Ia. pose proof (NilZero.isi _ Hb1 Hb2) as Ib.
  rewrite H in Ia. rewrite Ia in Ib. now injection Ib.
Qed.

Lemma split_at_space (a b x y : jsstring) :
  (forall c, In c a -> c <> space) -> (forall c, In c b -> c <> space) ->
  a ++ space :: x = b ++ space :: y -> a = b /\ x = y.
Proof.
  revert b. induction a as [|c a IH]; intros [|d b] Ha Hb H; simpl in H.
  - injection H as H. now split.
  - injection H as Hd _. exfalso. apply (Hb d); [now left | now symmetry].
  - injection H as Hc _. exfalso. apply (Ha c); [now left | exact Hc].
  - injection H as Hcd H. subst d.
    destruct (IH b) as [-> ->]; auto.
    + intros e He. apply Ha. now right.
    + intros e He. apply Hb. now right.
Qed.

Lemma limit_then_segment (m n : Z) (segment x y : jsstring) :
  of_Z m ++ (space :: segment) ++ x = of_Z n ++ (space :: segment) ++ y ->
  m = n /\ x = y.
Proof.
  intro H. simpl in H.
  apply split_at_space in H as [Hmn Hrest]; try apply of_Z_no_space.
  split; [now apply of_Z_injective | now apply app_inv_head in Hrest].
Qed.

Lemma buildPrompt_parts (t d g : Z) :
  buildPrompt t d g
  = promptHead ++ numberText t ++ promptSecond ++ numberText d ++ promptThird
      ++ numberText g ++ promptTail.
Proof.
  unfold buildPrompt, promptLines.
  generalize (numberText t) (numberText d) (numberText g). intros x y z.
  cbn. rewrite <- !app_assoc. reflexivity.
Qed.

(** X20.  The instruction text is four fixed parts with the three
    limits between them, each written as the language writes a number.
    For limits of magnitude at most 2^53 that is the decimal digits of
    the integer (with a minus sign when negative), and two requests
    with such limits get the same text only when their three limits are
    the same.  Beyond that magnitude a number is written with its
    shortest digits: 2^63 as 9223372036854776000, 10^21 as 1e+21 and
    2^70 as 1.1805916207174113e+21. *)
Theorem prompt_states_the_limits (t d g t' d' g' : Z) :
  prompt (buildRequest (mkRequestBody JNull JNull t d g))
  = promptHead ++ numberText t ++ promptSecond ++ numberText d ++ promptThird
      ++ numberText g ++ promptTail /\
  (Z.abs t <= 2 ^ 53 -> Z.abs d <= 2 ^ 53 -> Z.abs g <= 2 ^ 53 ->
   prompt (buildRequest (mkRequestBody JNull JNull t d g))
   = promptHead ++ of_Z t ++ promptSecond ++ of_Z d ++ promptThird ++ of_Z g ++ promptTail /\
   (Z.abs t' <= 2 ^ 53 -> Z.abs d' <= 2 ^ 53 -> Z.abs g' <= 2 ^ 53 ->
    buildPrompt t d g = buildPrompt t' d' g' -> t = t' /\ d = d' /\ g = g')) /\
  numberText (2 ^ 63) = lit "9223372036854776000" /\
  numberText (10 ^ 21) = lit "1e+21" /\
  numberText (2 ^ 70) = lit "1.1805916207174113e+21".
Proof.
  split; [apply buildPrompt_parts|]. split; [|repeat split; now vm_compute].
  intros Ht Hd Hg. unfold buildRequest, prompt. cbn [titleLength descriptionLength tagsLength].
  rewrite !buildPrompt_parts.
  rewrite (numberText_decimal t Ht), (numberText_decimal d Hd), (numberText_decimal g Hg).
  split; [reflexivity|]. intros Ht' Hd' Hg'.
  rewrite (numberText_decimal t' Ht'), (numberText_decimal d' Hd'), (numberText_decimal g' Hg').
  intro H. apply app_inv_head in H.
  change promptSecond with (space :: List.tl promptSecond) in H.
  apply limit_then_segment in H as [Et H].
  change promptThird with (space :: List.tl promptThird) in H.
  apply limit_then_segment in H as [Ed H].
  change promptTail with (space :: List.tl promptTail) in H.
  rewrite <- (app_nil_r (of_Z g ++ _)), <- (app_nil_r (of_Z g' ++ _)) in H.
  rewrite <- !app_assoc in H.
  apply limit_then_segment in H as [Eg _].
  auto.
Qed.

(** * The further properties at concrete inputs *)

Lemma truncation_keeps_prefix_witness :
  3 <= 40 /\
  jslen (ellipsize (lit "A small orange cat sits on a blue mat in a sunlit room.") 40)
  <= jslen (lit "A small orange cat sits on a blue mat in a sunlit room.").
Proof.
  split; [lia|].
  apply (proj2 (truncation_keeps_prefix
                  (lit "A small orange cat sits on a blue mat in a sunlit room.") 40
                  ltac:(lia))).
Defined.

Lemma tags_all_kept_iff_fit_witness :
  0 <= 20 /\
  (finalTags 20 [lit "cat"; lit "mat"] = [lit "cat"; lit "mat"]
   <-> joinedLength [lit "cat"; lit "mat"] <= 20).
Proof.
  split; [lia|].
  apply (proj1 (tags_all_kept_iff_fit 20 [lit "cat"; lit "mat"] ltac:(lia))).
Defined.

Lemma tags_come_from_strings_witness :
  fitFields JsonReader.gt (str "T") (str "D") [str "#cat"; JNull; str "pet"] 20 40 20
  = Normal {| title := str "T"; description := str "D"; tags := [lit "cat"; lit "pet"] |} /\
  (List.length [lit "cat"; lit "pet"] <= List.length [str "#cat"; JNull; str "pet"])%nat.
Proof.
  split; [now vm_compute|].
  apply (proj2 (tags_come_from_strings JsonReader.gt (str "T") (str "D")
                  [str "#cat"; JNull; str "pet"] 20 40 20
                  {| title := str "T"; description := str "D";
                     tags := [lit "cat"; lit "pet"] |}
                  ltac:(now vm_compute))).
Defined.

Lemma prose_around_json_is_dropped_witness :
  indexOf lbrace (lit "Sure! ") = None /\
  indexOf rbrace (lit " Hope that helps!") = None /\
  brace_match (lit "Sure! " ++ lbrace :: lit "a}{b" ++ rbrace :: lit " Hope that helps!")
  = Some (lbrace :: lit "a}{b" ++ [rbrace]) /\
  JsonReader.parse (lit "{a}{b}") = None /\
  extractJson JsonReader.parse
    (lit "Sure! " ++ lbrace :: lit "a}{b" ++ rbrace :: lit " Hope that helps!")
  = Throw (Error (lit "Failed to parse Gemini API response")).
Proof.
  split; [now vm_compute|]. split; [now vm_compute|].
  destruct (prose_around_json_is_dropped JsonReader.parse
              (lit "Sure! ") (lit "a}{b") (lit " Hope that helps!")
              ltac:(now vm_compute) ltac:(now vm_compute)) as [Hmatch Hextract].
  split; [exact Hmatch|]. split; [now vm_compute|].
  rewrite Hextract. now vm_compute.
Defined.

Lemma sent_results_pass_shape_check_witness :
  truthy (image (request 120 600 60)) = true /\
  exists (t d : JSValue) (sent : list jsstring),
    fst (run unreachable (analyzeImage JsonReader.parse JsonReader.gt (request 120 600 60)))
    = {| status := 200;
         payload := JObject [ (lit "title", t); (lit "description", d);
                              (lit "tags", JArray (List.map JString sent)) ] |} /\
    truthy t = true /\ truthy d = true /\
    invalidShape t d (JArray (List.map JString sent)) = false.
Proof.
  split; [reflexivity|].
  destruct (sent_results_pass_shape_check JsonReader.parse JsonReader.gt
              (request 120 600 60) unreachable eq_refl)
    as (t & d & sent & Hsent & Ht & Hd & _ & Hshape & _).
  exists t, d, sent. repeat split; assumption.
Defined.

Lemma success_path_witness :
  truthy (image (request 20 40 20)) = true /\
  answering rawA (buildRequest (request 20 40 20)) = Normal rawA /\
  brace_match rawA = Some spanA /\
  JsonReader.parse spanA = Some candidateA /\
  exists k : nat,
    run (answering rawA) (analyzeImage JsonReader.parse JsonReader.gt (request 20 40 20))
    = ({| status := 200;
          payload :=
            JObject
              [ (lit "title", str "A cat on a mat");
                (lit "description", str "A small orange cat sits on a blue mat...");
                (lit "tags",
                 JArray (List.map JString
                           (firstn k [lit "cat"; lit "mat"; lit "indoor"; lit "pet"]))) ] |},
       [buildRequest (request 20 40 20)]) /\
    (k <= 4)%nat.
Proof.
  split; [reflexivity|]. split; [reflexivity|]. split; [now vm_compute|].
  split; [now vm_compute|].
  destruct (success_path JsonReader.parse JsonReader.gt (request 20 40 20) (answering rawA)
              rawA spanA
              [ (lit "title", str "A cat on a mat");
                (lit "description",
                 str "A small orange cat sits on a blue mat in a sunlit room.");
                (lit "tags", JArray [str "cat"; str "mat"; str "indoor"; str "pet"]) ]
              (lit "A cat on a mat")
              (lit "A small orange cat sits on a blue mat in a sunlit room.")
              [str "cat"; str "mat"; str "indoor"; str "pet"])
    as (k & Hrun & Hk & _);
    try reflexivity; try discriminate; try (now vm_compute).
  exists k. split; [exact Hrun | exact Hk].
Defined.

Lemma refitting_is_identity_witness :
  fitFields JsonReader.gt (str "T") (str "D") [str "cat"; str "mat"] 20 40 20
  = Normal {| title := str "T"; description := str "D"; tags := [lit "cat"; lit "mat"] |} /\
  (forall tag, In tag [lit "cat"; lit "mat"] -> tag <> []) /\
  refit JsonReader.gt
    {| title := str "T"; description := str "D"; tags := [lit "cat"; lit "mat"] |} 20 40 20
  = Normal {| title := str "T"; description := str "D"; tags := [lit "cat"; lit "mat"] |}.
Proof.
  assert (Hne : forall tag, In tag [lit "cat"; lit "mat"] -> tag <> []).
  { intros tag [<- | [<- | []]]; discriminate. }
  split; [now vm_compute|]. split; [exact Hne|].
  apply (proj1 (refitting_is_identity JsonReader.parse JsonReader.gt (str "T") (str "D")
                  [str "cat"; str "mat"] 20 40 20
                  {| title := str "T"; description := str "D";
                     tags := [lit "cat"; lit "mat"] |}
                  ltac:(now vm_compute) Hne)).
Defined.

Lemma data_url_payload_extracted_witness :
  indexOf Client.comma ClientScenario.header = None /\
  indexOf Client.comma ClientScenario.payload = None /\
  Client.dataUrlPayload (ClientScenario.header ++ Client.comma :: ClientScenario.payload)
  = JString ClientScenario.payload.
Proof.
  split; [now vm_compute|]. split; [now vm_compute|].
  apply (proj1 (data_url_payload_extracted ClientScenario.header ClientScenario.payload
                  ltac:(now vm_compute))).
  now vm_compute.
Defined.

Lemma click_served_by_handler_witness :
  truthy (Client.image ClientScenario.selected) = true /\
  Client.chosenFile ClientScenario.browser = Some ClientScenario.png /\
  Client.fileReader ClientScenario.browser ClientScenario.png
  = Client.Loaded (ClientScenario.header ++ Client.comma :: ClientScenario.payload) /\
  indexOf Client.comma ClientScenario.header = None /\
  indexOf Client.comma ClientScenario.payload = None /\
  Client.backend ClientScenario.browser
  = served JsonReader.parse JsonReader.gt (answering rawA) /\
  snd (Client.run ClientScenario.browser
         (Client.handleGenerateResults ClientScenario.readFailure
            ClientScenario.otherText ClientScenario.selected))
  = [Client.GetTest;
     Client.PostAnalyzeImage
       (mkRequestBody (JString ClientScenario.payload) (str "image/png") 120 600 60)] /\
  Client.isProcessing
    (Client.applyAll ClientScenario.selected
       (fst (Client.run ClientScenario.browser
               (Client.handleGenerateResults ClientScenario.readFailure
                  ClientScenario.otherText ClientScenario.selected))))
  = false.
Proof.
  split; [reflexivity|]. split; [reflexivity|].
  split; [reflexivity|]. split; [now vm_compute|]. split; [now vm_compute|].
  split; [reflexivity|].
  destruct (click_served_by_handler ClientScenario.readFailure ClientScenario.otherText
              JsonReader.parse JsonReader.gt ClientScenario.selected ClientScenario.browser
              (answering rawA) ClientScenario.png ClientScenario.header ClientScenario.payload
              eq_refl eq_refl eq_refl
              ltac:(now vm_compute) ltac:(now vm_compute) eq_refl)
    as (Hsent & Hdone & _).
  split; [exact Hsent | exact Hdone].
Defined.
